(** * A shallow embedding of the data-access layer of sales-tracker

    This development models [src/services/database.ts] (the second, current
    version of the module: tables Users, Clients, Prospects, Sales, FollowUps,
    PhoneNumbers and CallLogs) and proves properties of its operations.

    Modelling choices:
    - a table is the list of its rows in rowid (insertion) order; an
      [INTEGER PRIMARY KEY AUTOINCREMENT] column is a [nat] drawn from a
      per-table sequence counter, as in sqlite_sequence;
    - TypeScript [number] columns that hold identifiers are [nat]; the REAL
      column [Sales.amount] and the numbers computed from it are rationals [Q];
    - strings are [String.string]; TEXT comparisons ([ORDER BY], [BETWEEN])
      use the binary collation, i.e. [String.compare];
    - every call to [db.getFirstAsync], [db.getAllAsync] or [db.runAsync] is one
      statement; the connection numbers the statements it executes, and an
      environment says which statement numbers fail (a storage fault).  A
      failing statement changes nothing (SQLite statements are atomic on their
      own) and raises; there is no transaction around several statements,
      exactly as in the source;
    - the module-level [db] handle is assumed to be opened by [initDatabase];
      [console.log] and [console.error] are not modelled;
    - [try { ... } catch (e) { ...; throw e }] rethrows the same error, so it is
      the identity on results. *)

From Stdlib Require Import List String Ascii Bool Arith Lia.
From Stdlib Require Import QArith Qround Lqa Sorting.Sorted Permutation.
Import ListNotations.

Open Scope string_scope.

(** ** Rows *)

Record Client := mkClient {
  c_id : nat; c_userId : nat; c_name : string; c_phone : string;
  c_email : string; c_company : string; c_industry : string }.

Record Prospect := mkProspect {
  p_id : nat; p_userId : nat; p_name : string; p_phone : string;
  p_email : string; p_company : string; p_status : string;
  p_followUpDate : string }.

Record Sale := mkSale {
  s_id : nat; s_clientId : nat; s_date : string; s_amount : Q;
  s_productOrService : string }.

Record FollowUp := mkFollowUp {
  f_id : nat; f_entityId : nat; f_entityType : string; f_date : string;
  f_notes : string; f_isCompleted : nat; f_createdAt : string }.

Record PhoneNumber := mkPhoneNumber {
  pn_id : nat; pn_userId : nat; pn_number : string; pn_lastCalledDate : string;
  pn_isProspect : nat; pn_prospectId : option nat }.

Record CallLog := mkCallLog {
  cl_id : nat; cl_phoneNumberId : nat; cl_date : string; cl_feedback : string;
  cl_duration : Z; cl_shortNotes : string; cl_nextFollowUpDate : option string }.

(** The database file: the tables used by the operations below and their
    AUTOINCREMENT sequences. *)
Record DB := mkDB {
  clients : list Client; prospects : list Prospect; sales : list Sale;
  followUps : list FollowUp; phoneNumbers : list PhoneNumber;
  callLogs : list CallLog;
  seqClients : nat; seqProspects : nat; seqSales : nat; seqFollowUps : nat;
  seqPhoneNumbers : nat; seqCallLogs : nat }.

Definition set_clients (d : DB) (l : list Client) (q : nat) : DB :=
  mkDB l d.(prospects) d.(sales) d.(followUps) d.(phoneNumbers) d.(callLogs)
       q d.(seqProspects) d.(seqSales) d.(seqFollowUps) d.(seqPhoneNumbers)
       d.(seqCallLogs).
Definition set_prospects (d : DB) (l : list Prospect) (q : nat) : DB :=
  mkDB d.(clients) l d.(sales) d.(followUps) d.(phoneNumbers) d.(callLogs)
       d.(seqClients) q d.(seqSales) d.(seqFollowUps) d.(seqPhoneNumbers)
       d.(seqCallLogs).
Definition set_sales (d : DB) (l : list Sale) (q : nat) : DB :=
  mkDB d.(clients) d.(prospects) l d.(followUps) d.(phoneNumbers) d.(callLogs)
       d.(seqClients) d.(seqProspects) q d.(seqFollowUps) d.(seqPhoneNumbers)
       d.(seqCallLogs).
Definition set_followUps (d : DB) (l : list FollowUp) (q : nat) : DB :=
  mkDB d.(clients) d.(prospects) d.(sales) l d.(phoneNumbers) d.(callLogs)
       d.(seqClients) d.(seqProspects) d.(seqSales) q d.(seqPhoneNumbers)
       d.(seqCallLogs).
Definition set_phoneNumbers (d : DB) (l : list PhoneNumber) (q : nat) : DB :=
  mkDB d.(clients) d.(prospects) d.(sales) d.(followUps) l d.(callLogs)
       d.(seqClients) d.(seqProspects) d.(seqSales) d.(seqFollowUps) q
       d.(seqCallLogs).
Definition set_callLogs (d : DB) (l : list CallLog) (q : nat) : DB :=
  mkDB d.(clients) d.(prospects) d.(sales) d.(followUps) d.(phoneNumbers) l
       d.(seqClients) d.(seqProspects) d.(seqSales) d.(seqFollowUps)
       d.(seqPhoneNumbers) q.

(** ** Statements, errors and the connection *)

(** The errors the operations raise: [new Error("... not found")], a storage
    fault of a statement, a violated UNIQUE constraint, and the [RangeError]
    of [toISOString] on an invalid date. *)
Inductive DbError :=
| NotFound (what : string)
| StorageFault
| ConstraintViolation
| InvalidDate.

Inductive Result (A : Type) :=
| Ok (a : A)
| Err (e : DbError).
Arguments Ok {A} a.
Arguments Err {A} e.

(** The connection: the database file and the number of statements run. *)
Record Conn := mkConn { store : DB; stmtNo : nat }.

(** What the outside world decides: which statements fail, the clock read
    by [new Date().toISOString()], and [new Date(s).toISOString().slice(0, 7)]
    for a stored date [s], which depends on the device time zone and is [None]
    when [s] is not a valid date (then [toISOString] throws). *)
Record Env := mkEnv {
  faults : nat -> bool; now : string; dateMonth : string -> option string }.

Definition noFaults (t : string) (dm : string -> option string) : Env :=
  mkEnv (fun _ => false) t dm.

Definition M (A : Type) := Env -> Conn -> Result A * Conn.

Definition ret {A} (a : A) : M A := fun _ c => (Ok a, c).
Definition throw {A} (e : DbError) : M A := fun _ c => (Err e, c).
Definition bind {A B} (m : M A) (k : A -> M B) : M B :=
  fun env c => match m env c with
               | (Ok a, c') => k a env c'
               | (Err e, c') => (Err e, c')
               end.

Notation "x <- m ;; k" := (bind m (fun x => k))
  (at level 61, m at next level, right associativity).
Notation "m ;;; k" := (bind m (fun _ => k)) (at level 61, right associativity).

Definition clock : M string := fun env c => (Ok (now env), c).

(** One SQL statement: [f] is its effect on the file (it may itself refuse,
    e.g. on a constraint, leaving the file as it was). *)
Definition stmt {A} (f : DB -> Result A * DB) : M A :=
  fun env c =>
    if faults env (stmtNo c) then (Err StorageFault, mkConn (store c) (S (stmtNo c)))
    else let (r, d) := f (store c) in (r, mkConn d (S (stmtNo c))).

(** A read-only statement. *)
Definition query {A} (f : DB -> A) : M A := stmt (fun d => (Ok (f d), d)).

(** [result.lastInsertRowId] of an INSERT into an AUTOINCREMENT table. *)
Definition nextId (seq : nat) : nat := S seq.

(** ** A stable sort

    [ORDER BY] and [Array.prototype.sort] are modelled by the same stable
    insertion sort: [le a b] says that [a] may stay before [b].  The
    ECMAScript standard requires [Array.prototype.sort] to be stable; for
    [ORDER BY] the order of rows with equal keys is unspecified by SQLite, and
    this model keeps their rowid order. *)
Fixpoint insertBy {A} (le : A -> A -> bool) (x : A) (l : list A) : list A :=
  match l with
  | [] => [x]
  | y :: ys => if le x y then x :: y :: ys else y :: insertBy le x ys
  end.

Fixpoint sortBy {A} (le : A -> A -> bool) (l : list A) : list A :=
  match l with
  | [] => []
  | x :: xs => insertBy le x (sortBy le xs)
  end.

(** [ORDER BY key ASC] and [ORDER BY key DESC] on a TEXT column. *)
Definition ascBy {A} (key : A -> string) (a b : A) : bool := String.leb (key a) (key b).
Definition descBy {A} (key : A -> string) (a b : A) : bool := String.leb (key b) (key a).

(** ** SQL statements, as effects on the file *)

(** [INSERT INTO Clients (userId, name, phone, email, company, industry)] *)
Definition sql_insertClient (userId : nat) (name phone email company industry : string)
  (d : DB) : Result nat * DB :=
  let i := nextId d.(seqClients) in
  (Ok i, set_clients d (d.(clients) ++ [mkClient i userId name phone email company industry]) i).

(** [INSERT INTO Prospects (userId, name, phone, email, company, status, followUpDate)] *)
Definition sql_insertProspect (userId : nat) (name phone email company status followUpDate : string)
  (d : DB) : Result nat * DB :=
  let i := nextId d.(seqProspects) in
  (Ok i, set_prospects d (d.(prospects) ++
            [mkProspect i userId name phone email company status followUpDate]) i).

(** [INSERT INTO Sales (clientId, date, amount, productOrService)] *)
Definition sql_insertSale (clientId : nat) (date : string) (amount : Q) (product : string)
  (d : DB) : Result nat * DB :=
  let i := nextId d.(seqSales) in
  (Ok i, set_sales d (d.(sales) ++ [mkSale i clientId date amount product]) i).

(** [INSERT INTO FollowUps (entityId, entityType, date, notes, isCompleted, createdAt)] *)
Definition sql_insertFollowUp (entityId : nat) (entityType date notes : string)
  (isCompleted : nat) (createdAt : string) (d : DB) : Result nat * DB :=
  let i := nextId d.(seqFollowUps) in
  (Ok i, set_followUps d (d.(followUps) ++
            [mkFollowUp i entityId entityType date notes isCompleted createdAt]) i).

Definition samePair (userId : nat) (number : string) (p : PhoneNumber) : bool :=
  Nat.eqb p.(pn_userId) userId && String.eqb p.(pn_number) number.

(** [INSERT INTO PhoneNumbers (userId, number, lastCalledDate, isProspect, prospectId)
    VALUES (?, ?, ?, 0, NULL)], refused by [UNIQUE(userId, number)]. *)
Definition sql_insertPhoneNumber (userId : nat) (number lastCalledDate : string)
  (d : DB) : Result nat * DB :=
  if existsb (samePair userId number) d.(phoneNumbers) then (Err ConstraintViolation, d)
  else
    let i := nextId d.(seqPhoneNumbers) in
    (Ok i, set_phoneNumbers d (d.(phoneNumbers) ++
              [mkPhoneNumber i userId number lastCalledDate 0 None]) i).

(** [INSERT INTO CallLogs (phoneNumberId, date, feedback, duration, shortNotes, nextFollowUpDate)] *)
Definition sql_insertCallLog (phoneNumberId : nat) (date feedback : string) (duration : Z)
  (shortNotes : string) (next : option string) (d : DB) : Result nat * DB :=
  let i := nextId d.(seqCallLogs) in
  (Ok i, set_callLogs d (d.(callLogs) ++
            [mkCallLog i phoneNumberId date feedback duration shortNotes next]) i).

(** [UPDATE Prospects SET status = ? WHERE id = ?] *)
Definition sql_updateProspectStatus (status : string) (prospectId : nat) (d : DB) : Result unit * DB :=
  (Ok tt, set_prospects d (map (fun p => if Nat.eqb p.(p_id) prospectId
      then mkProspect p.(p_id) p.(p_userId) p.(p_name) p.(p_phone) p.(p_email)
             p.(p_company) status p.(p_followUpDate)
      else p) d.(prospects)) d.(seqProspects)).

(** [UPDATE FollowUps SET isCompleted = 1 WHERE <cond>] *)
Definition completeFollowUpsWhere (cond : FollowUp -> bool) (d : DB) : Result unit * DB :=
  (Ok tt, set_followUps d (map (fun f => if cond f
      then mkFollowUp f.(f_id) f.(f_entityId) f.(f_entityType) f.(f_date) f.(f_notes) 1
             f.(f_createdAt)
      else f) d.(followUps)) d.(seqFollowUps)).

(** [UPDATE PhoneNumbers SET lastCalledDate = ? WHERE id = ?] *)
Definition sql_updateLastCalled (date : string) (phoneId : nat) (d : DB) : Result unit * DB :=
  (Ok tt, set_phoneNumbers d (map (fun p => if Nat.eqb p.(pn_id) phoneId
      then mkPhoneNumber p.(pn_id) p.(pn_userId) p.(pn_number) date p.(pn_isProspect)
             p.(pn_prospectId)
      else p) d.(phoneNumbers)) d.(seqPhoneNumbers)).

(** [UPDATE PhoneNumbers SET isProspect = 1, prospectId = ? WHERE id = ?] *)
Definition sql_markProspect (prospectId phoneId : nat) (d : DB) : Result unit * DB :=
  (Ok tt, set_phoneNumbers d (map (fun p => if Nat.eqb p.(pn_id) phoneId
      then mkPhoneNumber p.(pn_id) p.(pn_userId) p.(pn_number) p.(pn_lastCalledDate) 1
             (Some prospectId)
      else p) d.(phoneNumbers)) d.(seqPhoneNumbers)).

(** ** Repository operations *)

(** [getClients]: [SELECT * FROM Clients WHERE userId = ? ORDER BY name ASC] *)
Definition selectClients (userId : nat) (d : DB) : list Client :=
  sortBy (ascBy c_name) (filter (fun c => Nat.eqb c.(c_userId) userId) d.(clients)).

Definition getClients (userId : nat) : M (list Client) := query (selectClients userId).

(** [getClientById]: [SELECT * FROM Clients WHERE id = ?] with [getFirstAsync] *)
Definition getClientById (clientId : nat) : M (option Client) :=
  query (fun d => find (fun c => Nat.eqb c.(c_id) clientId) d.(clients)).

(** [getProspects]: [SELECT * FROM Prospects WHERE userId = ? ORDER BY followUpDate ASC] *)
Definition selectProspects (userId : nat) (d : DB) : list Prospect :=
  sortBy (ascBy p_followUpDate) (filter (fun p => Nat.eqb p.(p_userId) userId) d.(prospects)).

Definition getProspects (userId : nat) : M (list Prospect) := query (selectProspects userId).

(** The argument of [updateClient]: [Partial<Omit<Client, "id" | "userId">>];
    [None] is an absent ([undefined]) field. *)
Record ClientUpdates := mkClientUpdates {
  u_name : option string; u_phone : option string; u_email : option string;
  u_company : option string; u_industry : option string }.

Definition noClientUpdates : ClientUpdates := mkClientUpdates None None None None None.

(** One [SET column = ?] assignment of the built UPDATE statement. *)
Inductive ClientField := FName | FPhone | FEmail | FCompany | FIndustry.

Definition setClientField (c : Client) (fv : ClientField * string) : Client :=
  let (fld, v) := fv in
  match fld with
  | FName => mkClient c.(c_id) c.(c_userId) v c.(c_phone) c.(c_email) c.(c_company) c.(c_industry)
  | FPhone => mkClient c.(c_id) c.(c_userId) c.(c_name) v c.(c_email) c.(c_company) c.(c_industry)
  | FEmail => mkClient c.(c_id) c.(c_userId) c.(c_name) c.(c_phone) v c.(c_company) c.(c_industry)
  | FCompany => mkClient c.(c_id) c.(c_userId) c.(c_name) c.(c_phone) c.(c_email) v c.(c_industry)
  | FIndustry => mkClient c.(c_id) c.(c_userId) c.(c_name) c.(c_phone) c.(c_email) c.(c_company) v
  end.

(** [updateFields] and [values] as the source builds them, field by field. *)
Definition clientUpdateFields (u : ClientUpdates) : list (ClientField * string) :=
  let opt f o := match o with Some v => [(f, v)] | None => [] end in
  opt FName u.(u_name) ++ opt FPhone u.(u_phone) ++ opt FEmail u.(u_email)
  ++ opt FCompany u.(u_company) ++ opt FIndustry u.(u_industry).

(** [UPDATE Clients SET <fields> WHERE id = ?] *)
Definition sql_updateClient (fields : list (ClientField * string)) (clientId : nat)
  (d : DB) : Result unit * DB :=
  (Ok tt, set_clients d (map (fun c => if Nat.eqb c.(c_id) clientId
      then fold_left setClientField fields c else c) d.(clients)) d.(seqClients)).

(** [updateClient]: returns early when no field is supplied. *)
Definition updateClient (clientId : nat) (updates : ClientUpdates) : M unit :=
  let fields := clientUpdateFields updates in
  match fields with
  | [] => ret tt
  | _ => stmt (sql_updateClient fields clientId)
  end.

(** [completeFollowUp]: [UPDATE FollowUps SET isCompleted = 1 WHERE id = ?] *)
Definition completeFollowUp (followUpId : nat) : M unit :=
  stmt (completeFollowUpsWhere (fun f => Nat.eqb f.(f_id) followUpId)).

(** ** Cross-entity workflows *)

(** [saleData : Omit<Sale, "id" | "clientId">] *)
Record SaleData := mkSaleData { sd_date : string; sd_amount : Q; sd_productOrService : string }.

(** [convertProspectToClientAndRecordSale]: four statements, no transaction. *)
Definition convertProspectToClientAndRecordSale (prospectId : nat) (saleData : SaleData)
  : M (Client * Sale) :=
  prospect <- query (fun d => find (fun p => Nat.eqb p.(p_id) prospectId) d.(prospects)) ;;
  match prospect with
  | None => throw (NotFound "Prospect not found")
  | Some p =>
      clientId <- stmt (sql_insertClient p.(p_userId) p.(p_name) p.(p_phone) p.(p_email)
                          p.(p_company) "General") ;;
      let newClient := mkClient clientId p.(p_userId) p.(p_name) p.(p_phone) p.(p_email)
                         p.(p_company) "General" in
      saleId <- stmt (sql_insertSale clientId saleData.(sd_date) saleData.(sd_amount)
                        saleData.(sd_productOrService)) ;;
      let newSale := mkSale saleId clientId saleData.(sd_date) saleData.(sd_amount)
                       saleData.(sd_productOrService) in
      stmt (sql_updateProspectStatus "Won" prospectId) ;;;
      ret (newClient, newSale)
  end.

(** JavaScript truthiness of a [string | null | undefined] value. *)
Definition truthy (o : option string) : bool :=
  match o with Some s => negb (String.eqb s "") | None => false end.

(** [callData.logData : Omit<CallLog, "id" | "phoneNumberId">] *)
Record LogData := mkLogData {
  ld_date : string; ld_feedback : string; ld_duration : Z; ld_shortNotes : string;
  ld_nextFollowUpDate : option string }.

(** [recordNewCall]: look up or create the PhoneNumber, insert the CallLog, and
    insert a FollowUp when a next follow-up date is given. *)
Definition recordNewCall (userId : nat) (number : string) (logData : LogData)
  : M (PhoneNumber * CallLog) :=
  found <- query (fun d => find (samePair userId number) d.(phoneNumbers)) ;;
  phoneNumber <-
    match found with
    | None =>
        i <- stmt (sql_insertPhoneNumber userId number logData.(ld_date)) ;;
        ret (mkPhoneNumber i userId number logData.(ld_date) 0 None)
    | Some pn =>
        stmt (sql_updateLastCalled logData.(ld_date) pn.(pn_id)) ;;;
        ret (mkPhoneNumber pn.(pn_id) pn.(pn_userId) pn.(pn_number) logData.(ld_date)
               pn.(pn_isProspect) pn.(pn_prospectId))
    end ;;
  logId <- stmt (sql_insertCallLog phoneNumber.(pn_id) logData.(ld_date)
                   logData.(ld_feedback) logData.(ld_duration) logData.(ld_shortNotes)
                   logData.(ld_nextFollowUpDate)) ;;
  let newCallLog := mkCallLog logId phoneNumber.(pn_id) logData.(ld_date)
                      logData.(ld_feedback) logData.(ld_duration) logData.(ld_shortNotes)
                      logData.(ld_nextFollowUpDate) in
  (if truthy logData.(ld_nextFollowUpDate) then
     createdAt <- clock ;;
     stmt (sql_insertFollowUp phoneNumber.(pn_id) "phoneNumber"
             (match logData.(ld_nextFollowUpDate) with Some s => s | None => "" end)
             ("Follow-up call for " ++ number) 0 createdAt) ;;;
     ret tt
   else ret tt) ;;;
  ret (phoneNumber, newCallLog).

(** [prospectData : Omit<Prospect, "id" | "userId" | "phone">] *)
Record ProspectData := mkProspectData {
  pd_name : string; pd_email : string; pd_company : string; pd_status : string;
  pd_followUpDate : string }.

(** [convertPhoneNumberToProspect] *)
Definition convertPhoneNumberToProspect (phoneNumberId : nat) (prospectData : ProspectData)
  : M Prospect :=
  found <- query (fun d => find (fun p => Nat.eqb p.(pn_id) phoneNumberId) d.(phoneNumbers)) ;;
  match found with
  | None => throw (NotFound "Phone number not found")
  | Some pn =>
      i <- stmt (sql_insertProspect pn.(pn_userId) prospectData.(pd_name) pn.(pn_number)
                   prospectData.(pd_email) prospectData.(pd_company)
                   prospectData.(pd_status) prospectData.(pd_followUpDate)) ;;
      let newProspect := mkProspect i pn.(pn_userId) prospectData.(pd_name) pn.(pn_number)
                           prospectData.(pd_email) prospectData.(pd_company)
                           prospectData.(pd_status) prospectData.(pd_followUpDate) in
      stmt (sql_markProspect i phoneNumberId) ;;;
      stmt (completeFollowUpsWhere (fun f => Nat.eqb f.(f_entityId) phoneNumberId
                                             && String.eqb f.(f_entityType) "phoneNumber")) ;;;
      ret newProspect
  end.

(** ** Analytics *)

(** [getCallLogs]: CallLogs joined with their PhoneNumbers of the user,
    [ORDER BY CallLogs.date DESC]; a row carries the [number] column. *)
Definition selectCallLogs (userId : nat) (d : DB) : list (CallLog * string) :=
  sortBy (descBy (fun r => (fst r).(cl_date)))
    (flat_map (fun l => map (fun p => (l, p.(pn_number)))
        (filter (fun p => Nat.eqb p.(pn_id) l.(cl_phoneNumberId) && Nat.eqb p.(pn_userId) userId)
           d.(phoneNumbers))) d.(callLogs)).

Definition getCallLogs (userId : nat) : M (list (CallLog * string)) := query (selectCallLogs userId).

(** One side of a [LEFT JOIN]: the matching rows, or one row of NULLs. *)
Definition leftJoin {A} (l : list A) : list (option A) :=
  match l with [] => [None] | _ => map Some l end.

Definition ownedBy {A} (owner : A -> nat) (userId : nat) (o : option A) : bool :=
  match o with Some a => Nat.eqb (owner a) userId | None => false end.

(** [getFollowUps]: FollowUps LEFT JOIN Clients, Prospects and PhoneNumbers on
    [entityId]/[entityType], [WHERE Clients.userId = ? OR Prospects.userId = ?
    OR PhoneNumbers.userId = ?], [ORDER BY FollowUps.date ASC]. *)
Definition selectFollowUps (userId : nat) (d : DB) : list FollowUp :=
  sortBy (ascBy f_date) (flat_map (fun f =>
    let cs := leftJoin (filter (fun c => Nat.eqb c.(c_id) f.(f_entityId)
                                         && String.eqb f.(f_entityType) "client") d.(clients)) in
    let ps := leftJoin (filter (fun p => Nat.eqb p.(p_id) f.(f_entityId)
                                         && String.eqb f.(f_entityType) "prospect") d.(prospects)) in
    let ns := leftJoin (filter (fun p => Nat.eqb p.(pn_id) f.(f_entityId)
                                         && String.eqb f.(f_entityType) "phoneNumber") d.(phoneNumbers)) in
    flat_map (fun c => flat_map (fun p => flat_map (fun n =>
      if ownedBy c_userId userId c || ownedBy p_userId userId p || ownedBy pn_userId userId n
      then [f] else []) ns) ps) cs) d.(followUps)).

Definition getFollowUps (userId : nat) : M (list FollowUp) := query (selectFollowUps userId).

(** The Sales query of [getAnalyticsData]: Sales INNER JOIN Clients of the user,
    optionally [AND Sales.date BETWEEN ? AND ?], [ORDER BY Sales.date DESC].
    The code reads only [date], [amount] and [productOrService] of a row. *)
Definition analyticsSales (userId : nat) (bounds : option (string * string)) (d : DB) : list Sale :=
  sortBy (descBy s_date) (flat_map (fun s =>
    let inRange := match bounds with
                   | Some (lo, hi) => String.leb lo s.(s_date) && String.leb s.(s_date) hi
                   | None => true
                   end in
    if inRange then
      map (fun _ => s) (filter (fun c => Nat.eqb c.(c_id) s.(s_clientId)
                                        && Nat.eqb c.(c_userId) userId) d.(clients))
    else []) d.(sales)).

(** A JavaScript [Map] with string keys: entries in first-insertion order;
    [set] on a present key replaces its value in place. *)
Fixpoint mapGet {V} (m : list (string * V)) (k : string) : option V :=
  match m with
  | [] => None
  | (k', v) :: m' => if String.eqb k' k then Some v else mapGet m' k
  end.

Fixpoint mapSet {V} (m : list (string * V)) (k : string) (v : V) : list (string * V) :=
  match m with
  | [] => [(k, v)]
  | (k', v') :: m' => if String.eqb k' k then (k', v) :: m' else (k', v') :: mapSet m' k v
  end.

Definition mapGetOr {V} (m : list (string * V)) (k : string) (dflt : V) : V :=
  match mapGet m k with Some v => v | None => dflt end.

Record TopProduct := mkTopProduct { tp_product : string; tp_count : nat; tp_revenue : Q }.
Record MonthRow := mkMonthRow { mr_month : string; mr_revenue : Q; mr_count : nat }.

Record AnalyticsData := mkAnalyticsData {
  totalRevenue : Q; totalClients : nat; totalProspects : nat; totalCalls : nat;
  totalFollowUps : nat; completedFollowUps : nat; pendingFollowUps : nat;
  conversionRate : Q; averageSaleAmount : Q; topProducts : list TopProduct;
  salesByMonth : list MonthRow; prospectsByStatus : list (string * nat);
  callsByFeedback : list (string * nat) }.

Definition Q_of_nat (n : nat) : Q := inject_Z (Z.of_nat n).

(** [sales.reduce((sum, sale) => sum + sale.amount, 0)] *)
Definition sumAmounts (ss : list Sale) : Q := fold_left (fun sum s => sum + s.(s_amount)) ss 0.

(** [productMap]: per product, [{count, revenue}]. *)
Definition productMap (ss : list Sale) : list (string * (nat * Q)) :=
  fold_left (fun m s =>
    let existing := mapGetOr m s.(s_productOrService) (0%nat, 0) in
    mapSet m s.(s_productOrService) (S (fst existing), snd existing + s.(s_amount))) ss [].

(** [.sort((a, b) => b.revenue - a.revenue)]: [a] stays before [b] unless the
    comparator is positive. *)
Definition byRevenueDesc (a b : TopProduct) : bool := Qle_bool (b.(tp_revenue) - a.(tp_revenue)) 0.

(** [Array.from(productMap.entries()).map(([product, data]) => ({ product, ...data }))] *)
Definition productEntries (ss : list Sale) : list TopProduct :=
  map (fun '(product, (count, revenue)) => mkTopProduct product count revenue) (productMap ss).

(** The [topProducts] field: [.sort(...).slice(0, 5)]. *)
Definition computeTopProducts (ss : list Sale) : list TopProduct :=
  firstn 5 (sortBy byRevenueDesc (productEntries ss)).

(** [monthMap]: the [forEach] stops at the first sale whose date is invalid. *)
Definition monthMap (dm : string -> option string) (ss : list Sale)
  : Result (list (string * (Q * nat))) :=
  fold_left (fun acc s =>
    match acc with
    | Err e => Err e
    | Ok m =>
        match dm s.(s_date) with
        | None => Err InvalidDate
        | Some month =>
            let existing := mapGetOr m month (0, 0%nat) in
            Ok (mapSet m month (fst existing + s.(s_amount), S (snd existing)))
        end
    end) ss (Ok []).

(** A tally [Map<string, number>] over a list. *)
Definition tally {A} (key : A -> string) (l : list A) : list (string * nat) :=
  fold_left (fun m a => mapSet m (key a) (S (mapGetOr m (key a) 0%nat))) l [].

(** The in-memory part of [getAnalyticsData]. *)
Definition computeAnalytics (dm : string -> option string) (ss : list Sale)
  (cs : list Client) (ps : list Prospect) (logs : list (CallLog * string))
  (fus : list FollowUp) : Result AnalyticsData :=
  let totalRevenue := sumAmounts ss in
  let averageSaleAmount :=
    if Nat.ltb 0 (List.length ss) then totalRevenue / Q_of_nat (List.length ss) else 0 in
  let wonProspects := List.length (filter (fun p => String.eqb p.(p_status) "Won") ps) in
  let totalProspects := List.length ps in
  let conversionRate :=
    if Nat.ltb 0 totalProspects
    then (Q_of_nat wonProspects / Q_of_nat totalProspects) * 100 else 0 in
  let topProducts := computeTopProducts ss in
  match monthMap dm ss with
  | Err e => Err e
  | Ok mm =>
      let salesByMonth :=
        sortBy (ascBy mr_month) (map (fun '(month, (revenue, count)) =>
                                        mkMonthRow month revenue count) mm) in
      Ok (mkAnalyticsData totalRevenue (List.length cs) totalProspects (List.length logs)
            (List.length fus)
            (List.length (filter (fun f => Nat.eqb f.(f_isCompleted) 1) fus))
            (List.length (filter (fun f => Nat.eqb f.(f_isCompleted) 0) fus))
            conversionRate averageSaleAmount topProducts salesByMonth
            (tally p_status ps) (tally (fun r => (fst r).(cl_feedback)) logs))
  end.

(** [dateFilter] and [dateParams]: the bound is used when [startDate && endDate]
    is truthy. *)
Definition dateBounds (startDate endDate : option string) : option (string * string) :=
  if truthy startDate && truthy endDate
  then match startDate, endDate with
       | Some lo, Some hi => Some (lo, hi)
       | _, _ => None
       end
  else None.

(** [getAnalyticsData(userId, startDate?, endDate?)] *)
Definition getAnalyticsData (userId : nat) (startDate endDate : option string)
  : M AnalyticsData :=
  ss <- query (analyticsSales userId (dateBounds startDate endDate)) ;;
  cs <- getClients userId ;;
  ps <- getProspects userId ;;
  logs <- getCallLogs userId ;;
  fus <- getFollowUps userId ;;
  fun env c => match computeAnalytics (dateMonth env) ss cs ps logs fus with
               | Ok a => (Ok a, c)
               | Err e => (Err e, c)
               end.

(** ** The remaining repository operations *)

(** [DELETE FROM <table> WHERE <cond>] *)
Definition sql_deleteClients (cond : Client -> bool) (d : DB) : Result unit * DB :=
  (Ok tt, set_clients d (filter (fun r => negb (cond r)) d.(clients)) d.(seqClients)).
Definition sql_deleteProspects (cond : Prospect -> bool) (d : DB) : Result unit * DB :=
  (Ok tt, set_prospects d (filter (fun r => negb (cond r)) d.(prospects)) d.(seqProspects)).
Definition sql_deleteSales (cond : Sale -> bool) (d : DB) : Result unit * DB :=
  (Ok tt, set_sales d (filter (fun r => negb (cond r)) d.(sales)) d.(seqSales)).
Definition sql_deleteFollowUps (cond : FollowUp -> bool) (d : DB) : Result unit * DB :=
  (Ok tt, set_followUps d (filter (fun r => negb (cond r)) d.(followUps)) d.(seqFollowUps)).
Definition sql_deleteCallLogs (cond : CallLog -> bool) (d : DB) : Result unit * DB :=
  (Ok tt, set_callLogs d (filter (fun r => negb (cond r)) d.(callLogs)) d.(seqCallLogs)).

(** [client : Omit<Client, "id" | "userId">] *)
Record ClientInput := mkClientInput {
  ci_name : string; ci_phone : string; ci_email : string; ci_company : string;
  ci_industry : string }.

(** [addClient] *)
Definition addClient (userId : nat) (client : ClientInput) : M Client :=
  i <- stmt (sql_insertClient userId client.(ci_name) client.(ci_phone) client.(ci_email)
               client.(ci_company) client.(ci_industry)) ;;
  ret (mkClient i userId client.(ci_name) client.(ci_phone) client.(ci_email)
         client.(ci_company) client.(ci_industry)).

(** [deleteClient]: its client follow-ups, its sales, then the client. *)
Definition deleteClient (clientId : nat) : M unit :=
  stmt (sql_deleteFollowUps (fun f => Nat.eqb f.(f_entityId) clientId
                                      && String.eqb f.(f_entityType) "client")) ;;;
  stmt (sql_deleteSales (fun s => Nat.eqb s.(s_clientId) clientId)) ;;;
  stmt (sql_deleteClients (fun c => Nat.eqb c.(c_id) clientId)).

(** [prospect : Omit<Prospect, "id" | "userId">] *)
Record ProspectInput := mkProspectInput {
  pi_name : string; pi_phone : string; pi_email : string; pi_company : string;
  pi_status : string; pi_followUpDate : string }.

(** [addProspect] *)
Definition addProspect (userId : nat) (prospect : ProspectInput) : M Prospect :=
  i <- stmt (sql_insertProspect userId prospect.(pi_name) prospect.(pi_phone)
               prospect.(pi_email) prospect.(pi_company) prospect.(pi_status)
               prospect.(pi_followUpDate)) ;;
  ret (mkProspect i userId prospect.(pi_name) prospect.(pi_phone) prospect.(pi_email)
         prospect.(pi_company) prospect.(pi_status) prospect.(pi_followUpDate)).

(** [updateProspectStatus] *)
Definition updateProspectStatus (prospectId : nat) (status : string) : M unit :=
  stmt (sql_updateProspectStatus status prospectId).

(** [updates : Partial<Omit<Prospect, "id" | "userId">>] *)
Record ProspectUpdates := mkProspectUpdates {
  pu_name : option string; pu_phone : option string; pu_email : option string;
  pu_company : option string; pu_status : option string;
  pu_followUpDate : option string }.

Inductive ProspectField := PName | PPhone | PEmail | PCompany | PStatus | PFollowUpDate.

Definition setProspectField (p : Prospect) (fv : ProspectField * string) : Prospect :=
  let (fld, v) := fv in
  let '(mkProspect i u n ph e co st fd) := p in
  match fld with
  | PName => mkProspect i u v ph e co st fd
  | PPhone => mkProspect i u n v e co st fd
  | PEmail => mkProspect i u n ph v co st fd
  | PCompany => mkProspect i u n ph e v st fd
  | PStatus => mkProspect i u n ph e co v fd
  | PFollowUpDate => mkProspect i u n ph e co st v
  end.

Definition prospectUpdateFields (u : ProspectUpdates) : list (ProspectField * string) :=
  let opt f o := match o with Some v => [(f, v)] | None => [] end in
  opt PName u.(pu_name) ++ opt PPhone u.(pu_phone) ++ opt PEmail u.(pu_email)
  ++ opt PCompany u.(pu_company) ++ opt PStatus u.(pu_status)
  ++ opt PFollowUpDate u.(pu_followUpDate).

(** [updateProspect] *)
Definition updateProspect (prospectId : nat) (updates : ProspectUpdates) : M unit :=
  let fields := prospectUpdateFields updates in
  match fields with
  | [] => ret tt
  | _ => stmt (fun d => (Ok tt, set_prospects d (map (fun p =>
           if Nat.eqb p.(p_id) prospectId then fold_left setProspectField fields p else p)
           d.(prospects)) d.(seqProspects)))
  end.

(** [deleteProspect]: its prospect follow-ups, then the prospect. *)
Definition deleteProspect (prospectId : nat) : M unit :=
  stmt (sql_deleteFollowUps (fun f => Nat.eqb f.(f_entityId) prospectId
                                      && String.eqb f.(f_entityType) "prospect")) ;;;
  stmt (sql_deleteProspects (fun p => Nat.eqb p.(p_id) prospectId)).

(** [addSale(sale : Omit<Sale, "id">)] *)
Definition addSale (clientId : nat) (sale : SaleData) : M Sale :=
  i <- stmt (sql_insertSale clientId sale.(sd_date) sale.(sd_amount) sale.(sd_productOrService)) ;;
  ret (mkSale i clientId sale.(sd_date) sale.(sd_amount) sale.(sd_productOrService)).

(** [getSales]: Sales INNER JOIN Clients of the user, with the client's name,
    [ORDER BY Sales.date DESC]. *)
Definition selectSales (userId : nat) (d : DB) : list (Sale * string) :=
  sortBy (descBy (fun r => (fst r).(s_date)))
    (flat_map (fun s => map (fun c => (s, c.(c_name)))
        (filter (fun c => Nat.eqb c.(c_id) s.(s_clientId) && Nat.eqb c.(c_userId) userId)
           d.(clients))) d.(sales)).

Definition getSales (userId : nat) : M (list (Sale * string)) := query (selectSales userId).

(** [getSalesByClient]: [WHERE clientId = ? ORDER BY date DESC] *)
Definition getSalesByClient (clientId : nat) : M (list Sale) :=
  query (fun d => sortBy (descBy s_date)
                    (filter (fun s => Nat.eqb s.(s_clientId) clientId) d.(sales))).

(** [updates : Partial<Omit<Sale, "id" | "clientId">>] *)
Record SaleUpdates := mkSaleUpdates {
  su_date : option string; su_amount : option Q; su_productOrService : option string }.

Inductive SaleField := SDate (v : string) | SAmount (v : Q) | SProduct (v : string).

Definition setSaleField (s : Sale) (f : SaleField) : Sale :=
  let '(mkSale i c dt a p) := s in
  match f with
  | SDate v => mkSale i c v a p
  | SAmount v => mkSale i c dt v p
  | SProduct v => mkSale i c dt a v
  end.

Definition saleUpdateFields (u : SaleUpdates) : list SaleField :=
  match u.(su_date) with Some v => [SDate v] | None => [] end
  ++ match u.(su_amount) with Some v => [SAmount v] | None => [] end
  ++ match u.(su_productOrService) with Some v => [SProduct v] | None => [] end.

(** [updateSale] *)
Definition updateSale (saleId : nat) (updates : SaleUpdates) : M unit :=
  let fields := saleUpdateFields updates in
  match fields with
  | [] => ret tt
  | _ => stmt (fun d => (Ok tt, set_sales d (map (fun s =>
           if Nat.eqb s.(s_id) saleId then fold_left setSaleField fields s else s)
           d.(sales)) d.(seqSales)))
  end.

(** [deleteSale] *)
Definition deleteSale (saleId : nat) : M unit :=
  stmt (sql_deleteSales (fun s => Nat.eqb s.(s_id) saleId)).

(** [followUp : Omit<FollowUp, "id" | "createdAt">] *)
Record FollowUpInput := mkFollowUpInput {
  fi_entityId : nat; fi_entityType : string; fi_date : string; fi_notes : string;
  fi_isCompleted : nat }.

(** [addFollowUp]: [createdAt] is read from the clock first. *)
Definition addFollowUp (followUp : FollowUpInput) : M FollowUp :=
  createdAt <- clock ;;
  i <- stmt (sql_insertFollowUp followUp.(fi_entityId) followUp.(fi_entityType)
               followUp.(fi_date) followUp.(fi_notes) followUp.(fi_isCompleted) createdAt) ;;
  ret (mkFollowUp i followUp.(fi_entityId) followUp.(fi_entityType) followUp.(fi_date)
         followUp.(fi_notes) followUp.(fi_isCompleted) createdAt).

(** [getFollowUpsByEntity]: [WHERE entityId = ? AND entityType = ? ORDER BY date DESC] *)
Definition getFollowUpsByEntity (entityId : nat) (entityType : string) : M (list FollowUp) :=
  query (fun d => sortBy (descBy f_date)
    (filter (fun f => Nat.eqb f.(f_entityId) entityId && String.eqb f.(f_entityType) entityType)
       d.(followUps))).

(** [updateFollowUp(id, data : Partial<Pick<FollowUp, "date" | "notes">>)]:
    a field is used when it is truthy, so an empty string counts as absent. *)
Definition updateFollowUp (followUpId : nat) (date notes : option string) : M unit :=
  let fields := ((if truthy date then [true] else []) ++ (if truthy notes then [false] else []))%list in
  match fields with
  | [] => ret tt
  | _ => stmt (fun d => (Ok tt, set_followUps d (map (fun f =>
           if Nat.eqb f.(f_id) followUpId then
             mkFollowUp f.(f_id) f.(f_entityId) f.(f_entityType)
               (if truthy date then match date with Some v => v | None => f.(f_date) end
                else f.(f_date))
               (if truthy notes then match notes with Some v => v | None => f.(f_notes) end
                else f.(f_notes))
               f.(f_isCompleted) f.(f_createdAt)
           else f) d.(followUps)) d.(seqFollowUps)))
  end.

(** [deleteFollowUp] *)
Definition deleteFollowUp (followUpId : nat) : M unit :=
  stmt (sql_deleteFollowUps (fun f => Nat.eqb f.(f_id) followUpId)).

(** [getPhoneNumbers]: [WHERE userId = ? ORDER BY lastCalledDate DESC] *)
Definition getPhoneNumbers (userId : nat) : M (list PhoneNumber) :=
  query (fun d => sortBy (descBy pn_lastCalledDate)
                    (filter (fun p => Nat.eqb p.(pn_userId) userId) d.(phoneNumbers))).

(** [getCallLogsByPhoneNumber]: [WHERE phoneNumberId = ? ORDER BY date DESC] *)
Definition getCallLogsByPhoneNumber (phoneNumberId : nat) : M (list CallLog) :=
  query (fun d => sortBy (descBy cl_date)
                    (filter (fun l => Nat.eqb l.(cl_phoneNumberId) phoneNumberId) d.(callLogs))).

(** [updates : Partial<Omit<CallLog, "id" | "phoneNumberId">>]; the
    [nextFollowUpDate] field is [string | null], so [Some None] is a supplied
    [null]. *)
Record CallLogUpdates := mkCallLogUpdates {
  lu_date : option string; lu_feedback : option string; lu_duration : option Z;
  lu_shortNotes : option string; lu_nextFollowUpDate : option (option string) }.

Inductive CallLogField :=
| LDate (v : string) | LFeedback (v : string) | LDuration (v : Z)
| LShortNotes (v : string) | LNextFollowUpDate (v : option string).

Definition setCallLogField (l : CallLog) (f : CallLogField) : CallLog :=
  let '(mkCallLog i p dt fb du sn nx) := l in
  match f with
  | LDate v => mkCallLog i p v fb du sn nx
  | LFeedback v => mkCallLog i p dt v du sn nx
  | LDuration v => mkCallLog i p dt fb v sn nx
  | LShortNotes v => mkCallLog i p dt fb du v nx
  | LNextFollowUpDate v => mkCallLog i p dt fb du sn v
  end.

Definition callLogUpdateFields (u : CallLogUpdates) : list CallLogField :=
  match u.(lu_date) with Some v => [LDate v] | None => [] end
  ++ match u.(lu_feedback) with Some v => [LFeedback v] | None => [] end
  ++ match u.(lu_duration) with Some v => [LDuration v] | None => [] end
  ++ match u.(lu_shortNotes) with Some v => [LShortNotes v] | None => [] end
  ++ match u.(lu_nextFollowUpDate) with Some v => [LNextFollowUpDate v] | None => [] end.

(** [updateCallLog] *)
Definition updateCallLog (callLogId : nat) (updates : CallLogUpdates) : M unit :=
  let fields := callLogUpdateFields updates in
  match fields with
  | [] => ret tt
  | _ => stmt (fun d => (Ok tt, set_callLogs d (map (fun l =>
           if Nat.eqb l.(cl_id) callLogId then fold_left setCallLogField fields l else l)
           d.(callLogs)) d.(seqCallLogs)))
  end.

(** [deleteCallLog] *)
Definition deleteCallLog (callLogId : nat) : M unit :=
  stmt (sql_deleteCallLogs (fun l => Nat.eqb l.(cl_id) callLogId)).

(** ** Daily call statistics *)

(** [date.split("T")[0]] *)
Fixpoint beforeT (s : string) : string :=
  match s with
  | EmptyString => EmptyString
  | String ch rest => if Ascii.eqb ch "T"%char then EmptyString else String ch (beforeT rest)
  end.

Record DailyCallStats := mkDailyCallStats {
  ds_totalCalls : nat; ds_successful : nat; ds_busy : nat; ds_notAnswered : nat;
  ds_dnc : nat; ds_leads : nat }.

(** One step of the [switch (log.feedback)]. *)
Definition countFeedback (st : DailyCallStats) (feedback : string) : DailyCallStats :=
  let '(mkDailyCallStats t s b n d l) := st in
  if String.eqb feedback "Successful" then mkDailyCallStats t (S s) b n d l
  else if String.eqb feedback "Busy" then mkDailyCallStats t s (S b) n d l
  else if String.eqb feedback "Not Answered" then mkDailyCallStats t s b (S n) d l
  else if String.eqb feedback "DNC" then mkDailyCallStats t s b n (S d) l
  else if String.eqb feedback "Connected-Lead" then mkDailyCallStats t s b n d (S l)
  else st.

(** [getDailyCallStats(userId, date)]; [sqlDate] is SQLite's [DATE()], [None]
    for a text it cannot read as a date (then the comparison is NULL). *)
Definition getDailyCallStats (sqlDate : string -> option string) (userId : nat) (date : string)
  : M DailyCallStats :=
  let startOfDay := beforeT date in
  feedbacks <- query (fun d => map (fun r => (fst r).(cl_feedback))
    (sortBy (descBy (fun r => (fst r).(cl_date)))
      (flat_map (fun l => map (fun p => (l, p))
         (filter (fun p => Nat.eqb p.(pn_id) l.(cl_phoneNumberId) && Nat.eqb p.(pn_userId) userId
                           && match sqlDate l.(cl_date), sqlDate startOfDay with
                              | Some a, Some b => String.eqb a b
                              | _, _ => false
                              end) d.(phoneNumbers))) d.(callLogs)))) ;;
  ret (fold_left countFeedback feedbacks
         (mkDailyCallStats (List.length feedbacks) 0 0 0 0 0)).

(** * Properties *)

Open Scope list_scope.

(** ** Lemmas on the list operations *)

Lemma find_none_forall {A} (f : A -> bool) (l : list A) :
  find f l = None -> forall x, In x l -> f x = false.
Proof.
  induction l as [|a l IH]; simpl; intros H x Hx; [contradiction|].
  destruct (f a) eqn:Ha; [discriminate|].
  destruct Hx as [<-|Hx]; auto.
Qed.

Lemma find_none_filter {A} (f : A -> bool) (l : list A) :
  find f l = None -> filter f l = [].
Proof.
  induction l as [|a l IH]; simpl; intros H; [reflexivity|].
  destruct (f a); [discriminate|auto].
Qed.

Lemma find_some_filter_head {A} (f : A -> bool) (l : list A) (x : A) :
  find f l = Some x -> exists rest, filter f l = x :: rest.
Proof.
  induction l as [|a l IH]; simpl; intros H; [discriminate|].
  destruct (f a) eqn:Ha.
  - injection H as <-. eauto.
  - auto.
Qed.

Lemma map_idempotent {A} (g : A -> A) (l : list A) :
  (forall x, g (g x) = g x) -> map g (map g l) = map g l.
Proof.
  intros Hg. rewrite map_map. apply map_ext. exact Hg.
Qed.

Lemma filter_map_invariant {A} (f : A -> bool) (g : A -> A) (l : list A) :
  (forall x, f (g x) = f x) -> filter f (map g l) = map g (filter f l).
Proof.
  intros Hf. induction l as [|a l IH]; simpl; [reflexivity|].
  rewrite Hf. destruct (f a); simpl; rewrite IH; reflexivity.
Qed.

Lemma insertBy_perm {A} (le : A -> A -> bool) (x : A) (l : list A) :
  Permutation (insertBy le x l) (x :: l).
Proof.
  induction l as [|y l IH]; simpl; [auto|].
  destruct (le x y); [auto|].
  eapply perm_trans; [apply perm_skip, IH|apply perm_swap].
Qed.

Lemma sortBy_perm {A} (le : A -> A -> bool) (l : list A) : Permutation (sortBy le l) l.
Proof.
  induction l as [|x l IH]; simpl; [auto|].
  eapply perm_trans; [apply insertBy_perm|auto].
Qed.

(** ** C9: an update with no field is a no-op *)

(** C9: [updateClient(id, {})] runs no statement and returns normally: the
    connection, and so the whole store, is left as it was, under any faults. *)
Theorem updateClient_no_fields_noop (env : Env) (c : Conn) (clientId : nat) :
  updateClient clientId noClientUpdates env c = (Ok tt, c).
Proof. reflexivity. Qed.

(** ** C8: completing a follow-up is idempotent *)

(** C8: running [completeFollowUp(id)] twice leaves the store exactly as running
    it once does, both runs return normally, and the follow-up with that id has
    [isCompleted = 1]. *)
Theorem completeFollowUp_idempotent (t : string) (dm : string -> option string)
  (c : Conn) (followUpId : nat) :
  let env := noFaults t dm in
  let once := completeFollowUp followUpId env c in
  let twice := (completeFollowUp followUpId ;;; completeFollowUp followUpId) env c in
  fst once = Ok tt /\ fst twice = Ok tt /\
  store (snd twice) = store (snd once) /\
  (forall f, In f (followUps (store (snd once))) -> f_id f = followUpId ->
             f_isCompleted f = 1%nat).
Proof.
  cbn. split; [reflexivity|]. split; [reflexivity|]. split.
  - unfold set_followUps; cbn. f_equal.
    apply map_idempotent. intros f.
    destruct (Nat.eqb (f_id f) followUpId) eqn:E; cbn; rewrite ?E; reflexivity.
  - intros f Hin Hid. apply in_map_iff in Hin as (g & <- & _).
    destruct (Nat.eqb (f_id g) followUpId) eqn:E; cbn.
    + reflexivity.
    + cbn in Hid. apply Nat.eqb_neq in E. contradiction.
Qed.

(** ** C5: converting an absent prospect changes nothing *)

(** C5: when no Prospect has the given id, a fault-free
    [convertProspectToClientAndRecordSale] fails with the "Prospect not found"
    error and the store is unchanged. *)
Theorem convertProspect_absent_unchanged (t : string) (dm : string -> option string)
  (c : Conn) (prospectId : nat) (saleData : SaleData)
  (Habsent : ~ In prospectId (map p_id (prospects (store c)))) :
  let res := convertProspectToClientAndRecordSale prospectId saleData (noFaults t dm) c in
  fst res = Err (NotFound "Prospect not found") /\ store (snd res) = store c.
Proof.
  assert (Hf : find (fun p => Nat.eqb (p_id p) prospectId) (prospects (store c)) = None).
  { destruct (find _ _) as [p|] eqn:E; [|reflexivity].
    apply find_some in E as [Hin Heq]. apply Nat.eqb_eq in Heq.
    exfalso. apply Habsent. rewrite <- Heq. apply in_map. exact Hin. }
  cbn. rewrite Hf. split; reflexivity.
Qed.

(** ** C10: a single date bound is ignored *)

(** C10: [getAnalyticsData] with only [startDate], or only [endDate], is the
    same computation as with no dates at all. *)
Theorem getAnalyticsData_one_bound_ignored (userId : nat) (d : string) :
  getAnalyticsData userId (Some d) None = getAnalyticsData userId None None /\
  getAnalyticsData userId None (Some d) = getAnalyticsData userId None None.
Proof.
  unfold getAnalyticsData, dateBounds. cbn [truthy].
  rewrite andb_false_r. split; reflexivity.
Qed.

(** ** C2: which queries are scoped by owner *)

Lemma find_key_unique {A} (key : A -> nat) (l : list A) (x : A) :
  NoDup (map key l) -> In x l -> find (fun y => Nat.eqb (key y) (key x)) l = Some x.
Proof.
  induction l as [|a l IH]; simpl; intros Hnd Hin; [contradiction|].
  inversion Hnd as [|? ? Hnotin Hnd']; subst.
  destruct Hin as [<-|Hin].
  - rewrite Nat.eqb_refl. reflexivity.
  - destruct (Nat.eqb (key a) (key x)) eqn:E.
    + apply Nat.eqb_eq in E. exfalso. apply Hnotin. rewrite E. apply in_map. exact Hin.
    + auto.
Qed.

Lemma in_sortBy {A} (le : A -> A -> bool) (l : list A) (x : A) :
  In x (sortBy le l) <-> In x l.
Proof.
  split; apply Permutation_in; [|symmetry]; apply sortBy_perm.
Qed.

(** An empty database file, as [initDatabase] creates it. *)
Definition emptyDB : DB := mkDB [] [] [] [] [] [] 0 0 0 0 0 0.

(** A store where user 2 owns client 1 and user 1 owns client 2. *)
Definition twoOwnersDB : DB :=
  set_clients emptyDB
    [mkClient 1 2 "Bea" "555-0102" "bea@b.example" "B Ltd" "Retail";
     mkClient 2 1 "Al" "555-0101" "al@a.example" "A Ltd" "Retail"] 2.

(** C2 (counterexample): with users 1 and 2 owning disjoint clients, a lookup
    [getClientById(1)] made for user 1 returns the client owned by user 2. *)
Lemma getClientById_returns_other_owner :
  exists r, fst (getClientById 1 (noFaults "" (fun _ => None)) (mkConn twoOwnersDB 0))
              = Ok (Some r) /\ c_userId r = 2%nat /\ c_userId r <> 1%nat.
Proof.
  eexists. split; [reflexivity|]. split; [reflexivity|]. discriminate.
Qed.

(** C2 (amended): [getClients(u)] and [getProspects(u)] return exactly the rows
    owned by [u]; [getClientById(id)] takes no user and returns the Client with
    that id, whoever owns it. *)
Theorem list_queries_scoped_by_owner (t : string) (dm : string -> option string)
  (c : Conn) (userId : nat) :
  let env := noFaults t dm in
  let d := store c in
  (exists l, fst (getClients userId env c) = Ok l /\
             forall x, In x l <-> In x (clients d) /\ c_userId x = userId) /\
  (exists l, fst (getProspects userId env c) = Ok l /\
             forall x, In x l <-> In x (prospects d) /\ p_userId x = userId) /\
  (forall r, NoDup (map c_id (clients d)) -> In r (clients d) ->
             fst (getClientById (c_id r) env c) = Ok (Some r)).
Proof.
  cbn. split; [|split].
  - eexists. split; [reflexivity|]. intros x. unfold selectClients.
    rewrite in_sortBy, filter_In, Nat.eqb_eq. reflexivity.
  - eexists. split; [reflexivity|]. intros x. unfold selectProspects.
    rewrite in_sortBy, filter_In, Nat.eqb_eq. reflexivity.
  - intros r Hnd Hin. rewrite (find_key_unique c_id); auto.
Qed.

(** ** C4: converting a phone number into a prospect *)

(** C4: a fault-free [convertPhoneNumberToProspect(id, data)] fails with "Phone
    number not found", changing nothing, when no PhoneNumber has that id;
    otherwise it appends a Prospect carrying the PhoneNumber's number and owner,
    marks every PhoneNumber row with that id [isProspect = 1] with [prospectId]
    the new Prospect's id, and marks completed every FollowUp addressed to it
    (entityType "phoneNumber"), keeping the rows of both tables. *)
Theorem convertPhoneNumberToProspect_spec (t : string) (dm : string -> option string)
  (c : Conn) (phoneNumberId : nat) (pd : ProspectData) :
  let res := convertPhoneNumberToProspect phoneNumberId pd (noFaults t dm) c in
  let d := store c in
  let d' := store (snd res) in
  match find (fun p => Nat.eqb (pn_id p) phoneNumberId) (phoneNumbers d) with
  | None => fst res = Err (NotFound "Phone number not found") /\ d' = d
  | Some pn =>
      exists np, fst res = Ok np /\
        prospects d' = (prospects d ++ [np])%list /\
        p_id np = nextId (seqProspects d) /\
        p_phone np = pn_number pn /\ p_userId np = pn_userId pn /\
        (forall x, In x (phoneNumbers d') -> pn_id x = phoneNumberId ->
                   pn_isProspect x = 1%nat /\ pn_prospectId x = Some (p_id np)) /\
        map pn_id (phoneNumbers d') = map pn_id (phoneNumbers d) /\
        (forall f, In f (followUps d') -> f_entityId f = phoneNumberId ->
                   f_entityType f = "phoneNumber" -> f_isCompleted f = 1%nat) /\
        map f_id (followUps d') = map f_id (followUps d)
  end.
Proof.
  cbn. destruct (find _ _) as [pn|] eqn:E; [|split; reflexivity].
  cbn. eexists. split; [reflexivity|].
  split; [reflexivity|]. split; [reflexivity|]. split; [reflexivity|].
  split; [reflexivity|]. split; [|split; [|split]].
  - intros x Hin Hid. apply in_map_iff in Hin as (y & <- & _).
    destruct (Nat.eqb (pn_id y) phoneNumberId) eqn:Ey; cbn.
    + split; reflexivity.
    + cbn in Hid. apply Nat.eqb_neq in Ey. contradiction.
  - rewrite map_map. apply map_ext. intros y.
    destruct (Nat.eqb (pn_id y) phoneNumberId); reflexivity.
  - intros f Hin Hid Hty. apply in_map_iff in Hin as (g & <- & _).
    destruct (Nat.eqb (f_entityId g) phoneNumberId && String.eqb (f_entityType g) "phoneNumber")
      eqn:Eg; cbn.
    + reflexivity.
    + cbn in Hid, Hty. rewrite Hid, Hty, Nat.eqb_refl in Eg. discriminate.
  - rewrite map_map. apply map_ext. intros g.
    destruct (_ && _); reflexivity.
Qed.

(** ** C3: recording two calls to one number *)

Lemma find_none_existsb {A} (f : A -> bool) (l : list A) :
  find f l = None -> existsb f l = false.
Proof.
  induction l as [|a l IH]; simpl; intros H; [reflexivity|].
  destruct (f a); [discriminate|auto].
Qed.

(** One fault-free [recordNewCall] on a store with at most one row for the
    pair: it returns normally, leaves exactly one row for the pair, dated with
    this call, and adds one CallLog. *)
Lemma recordNewCall_single (t : string) (dm : string -> option string) (c : Conn)
  (userId : nat) (number : string) (logData : LogData) :
  (List.length (filter (samePair userId number) (phoneNumbers (store c))) <= 1)%nat ->
  let res := recordNewCall userId number logData (noFaults t dm) c in
  (exists v, fst res = Ok v) /\
  (exists pn, filter (samePair userId number) (phoneNumbers (store (snd res))) = [pn] /\
              pn_lastCalledDate pn = ld_date logData) /\
  (List.length (callLogs (store (snd res))) = S (List.length (callLogs (store c))))%nat.
Proof.
  intros Hle. cbn.
  destruct (find (samePair userId number) (phoneNumbers (store c))) as [pn|] eqn:E.
  - destruct (find_some_filter_head _ _ _ E) as [rest Hrest].
    assert (rest = []) as ->.
    { rewrite Hrest in Hle. destruct rest; [reflexivity|cbn in Hle; lia]. }
    cbn. destruct (truthy (ld_nextFollowUpDate logData)); cbn.
    all: split; [eexists; reflexivity|].
    all: split; [|rewrite length_app; cbn; lia].
    all: eexists; split;
      [ rewrite filter_map_invariant;
        [ rewrite Hrest; cbn; rewrite Nat.eqb_refl; reflexivity
        | intros x; destruct (Nat.eqb (pn_id x) (pn_id pn)); reflexivity ]
      | reflexivity ].
  - cbv [bind stmt query ret clock sql_insertPhoneNumber noFaults faults]; cbn.
    rewrite (find_none_existsb _ _ E). cbn.
    destruct (truthy (ld_nextFollowUpDate logData)); cbn.
    all: split; [eexists; reflexivity|].
    all: split; [|rewrite length_app; cbn; lia].
    all: eexists; split;
      [ rewrite filter_app, (find_none_filter _ _ E); unfold samePair; cbn;
        rewrite Nat.eqb_refl, String.eqb_refl; reflexivity
      | reflexivity ].
Qed.

(** C3: two fault-free [recordNewCall]s for the same (userId, number), on a
    store that respects [UNIQUE(userId, number)], both return normally and
    leave exactly one PhoneNumber row for the pair, whose [lastCalledDate] is
    the second call's date, and two more CallLog rows. *)
Theorem recordNewCall_twice_one_row (t : string) (dm : string -> option string)
  (c : Conn) (userId : nat) (number : string) (log1 log2 : LogData)
  (Hunique : (List.length (filter (samePair userId number) (phoneNumbers (store c))) <= 1)%nat) :
  let env := noFaults t dm in
  let r1 := recordNewCall userId number log1 env c in
  let r2 := recordNewCall userId number log2 env (snd r1) in
  (exists v, fst r1 = Ok v) /\ (exists v, fst r2 = Ok v) /\
  (exists pn, filter (samePair userId number) (phoneNumbers (store (snd r2))) = [pn] /\
              pn_lastCalledDate pn = ld_date log2) /\
  (List.length (callLogs (store (snd r2))) = S (S (List.length (callLogs (store c)))))%nat.
Proof.
  cbv zeta.
  destruct (recordNewCall_single t dm c userId number log1 Hunique)
    as (Hok1 & (pn1 & Hpn1 & _) & Hlen1).
  assert (Hle2 : (List.length (filter (samePair userId number)
                   (phoneNumbers (store (snd (recordNewCall userId number log1 (noFaults t dm) c)))))
                 <= 1)%nat) by (rewrite Hpn1; cbn; lia).
  destruct (recordNewCall_single t dm _ userId number log2 Hle2)
    as (Hok2 & Hpn2 & Hlen2).
  split; [exact Hok1|]. split; [exact Hok2|]. split; [exact Hpn2|].
  rewrite Hlen2, Hlen1. reflexivity.
Qed.

(** ** C1: the prospect-to-client conversion is not atomic *)

(** Outcome (a) of the conversion: the Prospect existed, one Client copying its
    owner and contact fields and one Sale for that Client with the sale data
    were appended, and the Prospect rows with that id are "Won". *)
Definition conversionDone (d d' : DB) (prospectId : nat) (sd : SaleData)
  (cl : Client) (sa : Sale) : Prop :=
  exists p, find (fun p => Nat.eqb (p_id p) prospectId) (prospects d) = Some p /\
    clients d' = (clients d ++ [cl])%list /\
    c_userId cl = p_userId p /\ c_name cl = p_name p /\ c_phone cl = p_phone p /\
    c_email cl = p_email p /\ c_company cl = p_company p /\
    sales d' = (sales d ++ [sa])%list /\
    s_clientId sa = c_id cl /\ s_date sa = sd_date sd /\ s_amount sa = sd_amount sd /\
    s_productOrService sa = sd_productOrService sd /\
    (forall q, In q (prospects d') -> p_id q = prospectId -> p_status q = "Won").

Definition oneProspectDB : DB :=
  set_prospects emptyDB
    [mkProspect 1 1 "Ada" "555-0100" "ada@x.example" "X Corp" "Qualified" "2024-06-01"] 1.

Definition saleData0 : SaleData := mkSaleData "2024-06-02" 250 "Consulting".

(** Statement 2 (the Sale insert) fails. *)
Definition saleInsertFails : Env := mkEnv (fun n => Nat.eqb n 2) "" (fun _ => None).

(** C1 (code bug): the four statements run without the transaction that the
    other implementations of this operation use.  For an existing Prospect,
    when the Sale insert fails the conversion raises, yet the new Client row
    persists: the result is neither outcome (a) nor the unchanged store. *)
Lemma convertProspect_partial_state :
  let c0 := mkConn oneProspectDB 0 in
  let res := convertProspectToClientAndRecordSale 1 saleData0 saleInsertFails c0 in
  In 1%nat (map p_id (prospects oneProspectDB)) /\
  fst res = Err StorageFault /\
  List.length (clients (store (snd res))) = 1%nat /\
  ~ ((exists cl sa, conversionDone oneProspectDB (store (snd res)) 1 saleData0 cl sa) \/
     store (snd res) = oneProspectDB).
Proof.
  cbv zeta. split; [left; reflexivity|]. split; [reflexivity|]. split; [reflexivity|].
  intros [(cl & sa & p & _ & _ & _ & _ & _ & _ & _ & Hsales & _) | Heq].
  - vm_compute in Hsales. discriminate.
  - vm_compute in Heq. discriminate.
Qed.

(** ** C6: the guarded averages of [getAnalyticsData] *)

Lemma perm_filter {A} (f : A -> bool) (l l' : list A) :
  Permutation l l' -> Permutation (filter f l) (filter f l').
Proof.
  induction 1 as [|x l l' _ IH|x y l|l l' l'' _ IH1 _ IH2]; cbn.
  - constructor.
  - destruct (f x); auto.
  - destruct (f x), (f y); auto. apply perm_swap.
  - eapply perm_trans; eauto.
Qed.

(** Without faults, [getAnalyticsData] is the in-memory computation over its
    five queries. *)
Lemma getAnalyticsData_fault_free (t : string) (dm : string -> option string) (c : Conn)
  (userId : nat) (startDate endDate : option string) :
  fst (getAnalyticsData userId startDate endDate (noFaults t dm) c) =
  computeAnalytics dm (analyticsSales userId (dateBounds startDate endDate) (store c))
    (selectClients userId (store c)) (selectProspects userId (store c))
    (selectCallLogs userId (store c)) (selectFollowUps userId (store c)).
Proof.
  cbv [getAnalyticsData getClients getProspects getCallLogs getFollowUps bind query stmt ret].
  cbn [noFaults faults dateMonth store stmtNo fst].
  destruct (computeAnalytics _ _ _ _ _ _); reflexivity.
Qed.

Lemma monthMap_nil (dm : string -> option string) : monthMap dm [] = Ok [].
Proof. reflexivity. Qed.

(** C6: without faults, for the sales [ss] the Sales query selects and the
    user's prospects [ps]: with no sale [getAnalyticsData] returns normally with
    [averageSaleAmount = 0]; with sales, any returned [averageSaleAmount] is
    [totalRevenue / ss.length], a division by a positive count; with no
    prospect any returned [conversionRate] is 0, and otherwise it is
    [won / ps.length * 100], again dividing by a positive count. *)
Theorem getAnalyticsData_guarded_rates (t : string) (dm : string -> option string)
  (c : Conn) (userId : nat) (startDate endDate : option string) :
  let res := fst (getAnalyticsData userId startDate endDate (noFaults t dm) c) in
  let ss := analyticsSales userId (dateBounds startDate endDate) (store c) in
  let ps := filter (fun p => Nat.eqb (p_userId p) userId) (prospects (store c)) in
  match ss with
  | [] => exists a, res = Ok a /\ averageSaleAmount a = 0
  | _ => forall a, res = Ok a ->
           (0 < Q_of_nat (List.length ss))%Q /\
           averageSaleAmount a = totalRevenue a / Q_of_nat (List.length ss)
  end /\
  match ps with
  | [] => forall a, res = Ok a -> conversionRate a = 0
  | _ => forall a, res = Ok a ->
           (0 < Q_of_nat (List.length ps))%Q /\
           conversionRate a =
             (Q_of_nat (List.length (filter (fun p => String.eqb (p_status p) "Won") ps))
              / Q_of_nat (List.length ps)) * 100
  end.
Proof.
  cbv zeta. rewrite getAnalyticsData_fault_free.
  assert (Hps : Permutation (selectProspects userId (store c))
                  (filter (fun p => Nat.eqb (p_userId p) userId) (prospects (store c))))
    by apply sortBy_perm.
  assert (Hlen := Permutation_length Hps).
  assert (Hwon := Permutation_length
                    (perm_filter (fun p => String.eqb (p_status p) "Won") _ _ Hps)).
  unfold computeAnalytics. split.
  - destruct (analyticsSales _ _ _) as [|s ss] eqn:Ess.
    + rewrite monthMap_nil. eexists. split; reflexivity.
    + intros a Ha. destruct (monthMap _ _); [|discriminate].
      injection Ha as <-. cbn [averageSaleAmount totalRevenue].
      split; [|reflexivity].
      unfold Q_of_nat, Qlt. cbn. lia.
  - destruct (filter _ (prospects (store c))) as [|p ps] eqn:Eps.
    + intros a Ha. destruct (monthMap _ _); [|discriminate].
      injection Ha as <-. cbn [conversionRate]. rewrite Hlen. reflexivity.
    + intros a Ha. destruct (monthMap _ _); [|discriminate].
      injection Ha as <-. cbn [conversionRate]. rewrite Hlen, Hwon.
      split; [|reflexivity].
      unfold Q_of_nat, Qlt. cbn. lia.
Qed.

(** ** C7: [topProducts] *)

(** The distinct elements of a list, in the order of their first occurrence. *)
Fixpoint dedupFirst (l : list string) : list string :=
  match l with
  | [] => []
  | x :: xs => x :: filter (fun y => negb (String.eqb y x)) (dedupFirst xs)
  end.

Lemma in_dedupFirst (l : list string) (x : string) : In x (dedupFirst l) <-> In x l.
Proof.
  induction l as [|a l IH]; cbn; [reflexivity|].
  rewrite filter_In, IH, negb_true_iff, String.eqb_neq.
  split.
  - intros [H|[H _]]; auto.
  - intros [H|H]; [auto|]. destruct (string_dec a x); [left; assumption|right; auto].
Qed.

Lemma dedupFirst_snoc (l : list string) (x : string) :
  dedupFirst (l ++ [x]) = dedupFirst l ++ (if in_dec string_dec x l then [] else [x]).
Proof.
  induction l as [|a l IH]; [reflexivity|].
  change ((a :: l) ++ [x]) with (a :: (l ++ [x])). cbn [dedupFirst].
  rewrite IH, filter_app, <- app_comm_cons. f_equal. f_equal.
  destruct (in_dec string_dec x (a :: l)) as [H1|H1];
    destruct (in_dec string_dec x l) as [H2|H2]; cbn.
  - reflexivity.
  - destruct H1 as [->|H1]; [|contradiction]. rewrite String.eqb_refl. reflexivity.
  - exfalso. apply H1. right. exact H2.
  - destruct (String.eqb x a) eqn:E; [|reflexivity].
    apply String.eqb_eq in E as ->. exfalso. apply H1. left. reflexivity.
Qed.

Lemma NoDup_dedupFirst (l : list string) : NoDup (dedupFirst l).
Proof.
  induction l as [|a l IH]; cbn; constructor.
  - rewrite filter_In, negb_true_iff, String.eqb_refl. intros [_ H]. discriminate.
  - apply NoDup_filter. exact IH.
Qed.

Lemma mapGet_mapSet {V} (m : list (string * V)) (k k' : string) (v : V) :
  mapGet (mapSet m k v) k' = if String.eqb k k' then Some v else mapGet m k'.
Proof.
  induction m as [|[k0 v0] m IH]; cbn.
  - destruct (String.eqb k k'); reflexivity.
  - destruct (String.eqb k0 k) eqn:E0; cbn.
    + apply String.eqb_eq in E0 as ->. destruct (String.eqb k k'); reflexivity.
    + destruct (String.eqb k0 k') eqn:E1; rewrite ?IH.
      * apply String.eqb_eq in E1 as ->.
        destruct (String.eqb k k') eqn:E2; [|reflexivity].
        apply String.eqb_eq in E2 as ->. rewrite String.eqb_refl in E0. discriminate.
      * reflexivity.
Qed.

Lemma mapSet_keys {V} (m : list (string * V)) (k : string) (v : V) :
  map fst (mapSet m k v) = map fst m ++ (if in_dec string_dec k (map fst m) then [] else [k]).
Proof.
  induction m as [|[k0 v0] m IH]; [reflexivity|].
  cbn [mapSet]. destruct (String.eqb k0 k) eqn:E.
  - apply String.eqb_eq in E as ->. cbn [map fst].
    destruct (in_dec string_dec k (k :: map fst m)) as [_|H].
    + rewrite app_nil_r. reflexivity.
    + exfalso. apply H. left. reflexivity.
  - cbn [map fst]. rewrite IH, <- app_comm_cons. f_equal. f_equal.
    apply String.eqb_neq in E.
    destruct (in_dec string_dec k (k0 :: map fst m)) as [H1|H1],
             (in_dec string_dec k (map fst m)) as [H2|H2].
    + reflexivity.
    + destruct H1 as [H1|H1]; [congruence|contradiction].
    + exfalso. apply H1. right. exact H2.
    + reflexivity.
Qed.

Lemma mapGet_in_NoDup {V} (m : list (string * V)) (k : string) (v : V) :
  NoDup (map fst m) -> In (k, v) m -> mapGet m k = Some v.
Proof.
  induction m as [|[k0 v0] m IH]; cbn; intros Hnd Hin; [contradiction|].
  inversion Hnd as [|? ? Hnotin Hnd']; subst.
  destruct Hin as [Heq|Hin].
  - injection Heq as -> ->. rewrite String.eqb_refl. reflexivity.
  - destruct (String.eqb k0 k) eqn:E.
    + apply String.eqb_eq in E as ->. exfalso. apply Hnotin.
      apply (in_map fst) in Hin. exact Hin.
    + auto.
Qed.

(** The sales of one product. *)
Definition salesOf (product : string) (ss : list Sale) : list Sale :=
  filter (fun s => String.eqb (s_productOrService s) product) ss.

Lemma sumAmounts_snoc (ss : list Sale) (s : Sale) :
  sumAmounts (ss ++ [s]) = sumAmounts ss + s_amount s.
Proof. unfold sumAmounts. rewrite fold_left_app. reflexivity. Qed.

Lemma productMap_snoc (ss : list Sale) (s : Sale) :
  productMap (ss ++ [s]) =
  let m := productMap ss in
  let existing := mapGetOr m s.(s_productOrService) (0%nat, 0) in
  mapSet m s.(s_productOrService) (S (fst existing), snd existing + s.(s_amount)).
Proof. unfold productMap. rewrite fold_left_app. reflexivity. Qed.

(** The keys of [productMap] are the products in order of first sale, and each
    product maps to the number and the total amount of its sales. *)
Lemma productMap_spec (ss : list Sale) :
  map fst (productMap ss) = dedupFirst (map s_productOrService ss) /\
  forall p, mapGetOr (productMap ss) p (0%nat, 0) =
            (List.length (salesOf p ss), sumAmounts (salesOf p ss)).
Proof.
  induction ss as [|s ss IH] using rev_ind; [split; reflexivity|].
  destruct IH as [Hkeys Hget].
  rewrite productMap_snoc. cbv zeta. split.
  - rewrite mapSet_keys, map_app. cbn [map]. rewrite dedupFirst_snoc, Hkeys.
    destruct (in_dec string_dec (s_productOrService s) (dedupFirst (map s_productOrService ss))),
             (in_dec string_dec (s_productOrService s) (map s_productOrService ss));
      rewrite ?in_dedupFirst in *; tauto || reflexivity.
  - intros p. unfold mapGetOr at 1. rewrite mapGet_mapSet.
    unfold salesOf. rewrite filter_app, length_app. cbn.
    destruct (String.eqb (s_productOrService s) p) eqn:E.
    + apply String.eqb_eq in E as <-. rewrite Hget. cbn.
      rewrite sumAmounts_snoc. unfold salesOf. f_equal. lia.
    + rewrite app_nil_r, Nat.add_0_r. apply Hget.
Qed.

(** The order [byRevenueDesc] stands for. *)
Definition revenueGe (a b : TopProduct) : Prop := (tp_revenue b <= tp_revenue a)%Q.

Lemma byRevenueDesc_iff (a b : TopProduct) :
  byRevenueDesc a b = true <-> revenueGe a b.
Proof.
  unfold byRevenueDesc, revenueGe. rewrite Qle_bool_iff. split; intros; lra.
Qed.

Lemma byRevenueDesc_false (a b : TopProduct) :
  byRevenueDesc a b = false -> (tp_revenue a < tp_revenue b)%Q.
Proof.
  unfold byRevenueDesc. intros H.
  destruct (Qlt_le_dec (tp_revenue a) (tp_revenue b)) as [Hlt|Hle]; [exact Hlt|].
  assert (Hb : Qle_bool (tp_revenue b - tp_revenue a) 0 = true) by (apply Qle_bool_iff; lra).
  congruence.
Qed.

Lemma insertBy_HdRel (x y : TopProduct) (l : list TopProduct) :
  HdRel revenueGe y l -> revenueGe y x -> HdRel revenueGe y (insertBy byRevenueDesc x l).
Proof.
  destruct l as [|z l]; cbn; intros Hhd Hyx.
  - constructor. exact Hyx.
  - destruct (byRevenueDesc x z); constructor; [exact Hyx|inversion Hhd; assumption].
Qed.

Lemma insertBy_sorted (x : TopProduct) (l : list TopProduct) :
  Sorted revenueGe l -> Sorted revenueGe (insertBy byRevenueDesc x l).
Proof.
  induction l as [|y l IH]; cbn; intros Hs.
  - repeat constructor.
  - destruct (byRevenueDesc x y) eqn:E.
    + constructor; [exact Hs|]. constructor. apply byRevenueDesc_iff. exact E.
    + inversion Hs as [|? ? Hs' Hhd]; subst.
      constructor; [apply IH; exact Hs'|].
      apply insertBy_HdRel; [exact Hhd|].
      apply byRevenueDesc_false in E. unfold revenueGe. lra.
Qed.

Lemma sortBy_sorted (l : list TopProduct) : Sorted revenueGe (sortBy byRevenueDesc l).
Proof.
  induction l as [|x l IH]; cbn; [constructor|]. apply insertBy_sorted. exact IH.
Qed.

(** Inserting keeps the relative order of the elements of one revenue. *)
Lemma insertBy_stable (r : Q) (x : TopProduct) (l : list TopProduct) :
  filter (fun g => Qeq_bool (tp_revenue g) r) (insertBy byRevenueDesc x l) =
  filter (fun g => Qeq_bool (tp_revenue g) r) (x :: l).
Proof.
  induction l as [|y l IH]; cbn; [reflexivity|].
  destruct (byRevenueDesc x y) eqn:E; cbn; [reflexivity|].
  rewrite IH. cbn.
  destruct (Qeq_bool (tp_revenue x) r) eqn:Ex; [|reflexivity].
  destruct (Qeq_bool (tp_revenue y) r) eqn:Ey; [|reflexivity].
  apply byRevenueDesc_false in E. apply Qeq_bool_iff in Ex, Ey. lra.
Qed.

Lemma sortBy_stable (r : Q) (l : list TopProduct) :
  filter (fun g => Qeq_bool (tp_revenue g) r) (sortBy byRevenueDesc l) =
  filter (fun g => Qeq_bool (tp_revenue g) r) l.
Proof.
  induction l as [|x l IH]; cbn; [reflexivity|].
  rewrite insertBy_stable. cbn. rewrite IH. reflexivity.
Qed.

(** C7: [topProducts] is the first five of a list [sorted] that holds the
    entries of [productMap] (one per product, in the order of each product's
    first sale, with its sale count and revenue), is in non-increasing order
    of revenue, and keeps the order of the entries of any one revenue (stable
    sort); it is the [topProducts] field of every analytics result computed
    from these sales. *)
Theorem topProducts_grouped_sorted_stable (ss : list Sale) :
  let groups := productEntries ss in
  exists sorted,
    computeTopProducts ss = firstn 5 sorted /\
    (List.length (computeTopProducts ss) <= 5)%nat /\
    Permutation sorted groups /\
    Sorted revenueGe sorted /\
    (forall r, filter (fun g => Qeq_bool (tp_revenue g) r) sorted =
               filter (fun g => Qeq_bool (tp_revenue g) r) groups) /\
    map tp_product groups = dedupFirst (map s_productOrService ss) /\
    (forall g, In g groups ->
       tp_count g = List.length (salesOf (tp_product g) ss) /\
       tp_revenue g = sumAmounts (salesOf (tp_product g) ss)) /\
    (forall dm cs ps logs fus a,
       computeAnalytics dm ss cs ps logs fus = Ok a -> topProducts a = computeTopProducts ss).
Proof.
  cbv zeta. destruct (productMap_spec ss) as [Hkeys Hget].
  exists (sortBy byRevenueDesc (productEntries ss)).
  split; [reflexivity|]. split; [apply firstn_le_length|].
  split; [apply sortBy_perm|]. split; [apply sortBy_sorted|].
  split; [intros r; apply sortBy_stable|]. split; [|split].
  - unfold productEntries. rewrite map_map, <- Hkeys.
    apply map_ext. intros [k [n q]]. reflexivity.
  - intros g Hg. unfold productEntries in Hg.
    apply in_map_iff in Hg as ([k [n q]] & <- & Hin). cbn.
    assert (Hnd : NoDup (map fst (productMap ss))) by (rewrite Hkeys; apply NoDup_dedupFirst).
    specialize (Hget k). unfold mapGetOr in Hget.
    rewrite (mapGet_in_NoDup _ _ _ Hnd Hin) in Hget.
    injection Hget as -> ->. split; reflexivity.
  - intros dm cs ps logs fus a Ha. unfold computeAnalytics in Ha.
    destruct (monthMap _ _); [|discriminate]. injection Ha as <-. reflexivity.
Qed.

(** ** Concrete runs *)

Definition noFaults0 : Env := noFaults "2024-06-03T09:00:00.000Z" (fun _ => None).

(** Tied revenues keep the order of first sale: A and B both make 10. *)
Example topProducts_tie_order :
  map tp_product (computeTopProducts
    [mkSale 1 1 "2024-06-03" 4 "A"; mkSale 2 1 "2024-06-02" 10 "B";
     mkSale 3 1 "2024-06-01" 30 "C"; mkSale 4 1 "2024-05-30" 6 "A"])
  = ["C"; "A"; "B"].
Proof. vm_compute. reflexivity. Qed.

(** The absent prospect 7 of [oneProspectDB]. *)
Lemma convertProspect_absent_unchanged_witness :
  ~ In 7%nat (map p_id (prospects oneProspectDB)) /\
  fst (convertProspectToClientAndRecordSale 7 saleData0 noFaults0 (mkConn oneProspectDB 0))
    = Err (NotFound "Prospect not found") /\
  store (snd (convertProspectToClientAndRecordSale 7 saleData0 noFaults0
                (mkConn oneProspectDB 0))) = oneProspectDB.
Proof.
  assert (H : ~ In 7%nat (map p_id (prospects oneProspectDB))).
  { cbn. intros [H|H]; [discriminate|contradiction]. }
  split; [exact H|].
  exact (convertProspect_absent_unchanged "2024-06-03T09:00:00.000Z" (fun _ => None)
           (mkConn oneProspectDB 0) 7 saleData0 H).
Defined.

(** A store that already has a row for user 1 and "555-0199". *)
Definition onePhoneDB : DB :=
  set_phoneNumbers emptyDB [mkPhoneNumber 1 1 "555-0199" "2024-06-01" 0 None] 1.

Definition callOn (date : string) : LogData := mkLogData date "Busy" 0 "call back" None.

Lemma recordNewCall_twice_one_row_witness :
  (List.length (filter (samePair 1 "555-0199") (phoneNumbers onePhoneDB)) <= 1)%nat /\
  let env := noFaults0 in
  let r1 := recordNewCall 1 "555-0199" (callOn "2024-06-02") env (mkConn onePhoneDB 0) in
  let r2 := recordNewCall 1 "555-0199" (callOn "2024-06-03") env (snd r1) in
  (exists v, fst r1 = Ok v) /\ (exists v, fst r2 = Ok v) /\
  (exists pn, filter (samePair 1 "555-0199") (phoneNumbers (store (snd r2))) = [pn] /\
              pn_lastCalledDate pn = ld_date (callOn "2024-06-03")) /\
  (List.length (callLogs (store (snd r2))) =
     S (S (List.length (callLogs onePhoneDB))))%nat.
Proof.
  assert (H : (List.length (filter (samePair 1 "555-0199") (phoneNumbers onePhoneDB)) <= 1)%nat).
  { vm_compute. lia. }
  split; [exact H|].
  exact (recordNewCall_twice_one_row "2024-06-03T09:00:00.000Z" (fun _ => None)
           (mkConn onePhoneDB 0) 1 "555-0199" (callOn "2024-06-02") (callOn "2024-06-03") H).
Defined.

(** * Further properties of the repository operations *)

Lemma find_app {A} (f : A -> bool) (l1 l2 : list A) :
  find f (l1 ++ l2) = match find f l1 with Some x => Some x | None => find f l2 end.
Proof. induction l1 as [|a l1 IH]; cbn; [reflexivity|]. destruct (f a); auto. Qed.

Lemma find_absent_key {A} (key : A -> nat) (l : list A) (k : nat) :
  ~ In k (map key l) -> find (fun x => Nat.eqb (key x) k) l = None.
Proof.
  intros H. destruct (find _ l) as [x|] eqn:E; [|reflexivity].
  apply find_some in E as [Hin Heq]. apply Nat.eqb_eq in Heq.
  exfalso. apply H. rewrite <- Heq. apply in_map. exact Hin.
Qed.

Lemma map_update_absent {A} (key : A -> nat) (g : A -> A) (l : list A) (k : nat) :
  ~ In k (map key l) -> map (fun x => if Nat.eqb (key x) k then g x else x) l = l.
Proof.
  induction l as [|a l IH]; cbn; intros H; [reflexivity|].
  destruct (Nat.eqb (key a) k) eqn:E.
  - apply Nat.eqb_eq in E. exfalso. apply H. left. exact E.
  - f_equal. apply IH. intros Hin. apply H. right. exact Hin.
Qed.

Lemma filter_negb_self {A} (f : A -> bool) (l : list A) :
  filter f (filter (fun x => negb (f x)) l) = [].
Proof.
  induction l as [|a l IH]; cbn; [reflexivity|].
  destruct (f a) eqn:E; cbn; [exact IH|]. rewrite E. exact IH.
Qed.

(** ** Adding and looking up a client *)

(** X1: with the Clients ids within their AUTOINCREMENT sequence (as SQLite
    keeps them), a fault-free [addClient] appends the returned client, which
    [getClientById] then finds by its id and [getClients] lists for its owner. *)
Theorem addClient_then_lookup (t : string) (dm : string -> option string) (c : Conn)
  (userId : nat) (ci : ClientInput)
  (Hseq : Forall (fun x => (c_id x <= seqClients (store c))%nat) (clients (store c))) :
  let env := noFaults t dm in
  let r := addClient userId ci env c in
  exists cl, fst r = Ok cl /\
    clients (store (snd r)) = clients (store c) ++ [cl] /\
    fst (getClientById (c_id cl) env (snd r)) = Ok (Some cl) /\
    exists l, fst (getClients userId env (snd r)) = Ok l /\ In cl l.
Proof.
  cbn. eexists. split; [reflexivity|]. split; [reflexivity|]. split.
  - cbn. rewrite find_app, find_absent_key.
    + cbn. rewrite Nat.eqb_refl. reflexivity.
    + unfold nextId. intros Hin. apply in_map_iff in Hin as (x & Hx & Hin).
      rewrite Forall_forall in Hseq. specialize (Hseq x Hin). lia.
  - eexists. split; [reflexivity|]. unfold selectClients.
    apply in_sortBy, filter_In. split.
    + apply in_or_app. right. left. reflexivity.
    + apply Nat.eqb_refl.
Qed.

(** ** Deleting a client *)

(** X2: a fault-free [deleteClient(id)] removes the client with that id, its
    sales and the follow-ups addressed to it as a client, and nothing else;
    afterwards [getClientById], [getSalesByClient] and [getFollowUpsByEntity(id,
    "client")] find nothing. *)
Theorem deleteClient_cascade (t : string) (dm : string -> option string) (c : Conn)
  (clientId : nat) :
  let env := noFaults t dm in
  let r := deleteClient clientId env c in
  let d := store c in
  let d' := store (snd r) in
  fst r = Ok tt /\
  clients d' = filter (fun x => negb (Nat.eqb (c_id x) clientId)) (clients d) /\
  sales d' = filter (fun s => negb (Nat.eqb (s_clientId s) clientId)) (sales d) /\
  followUps d' = filter (fun f => negb (Nat.eqb (f_entityId f) clientId
                                        && String.eqb (f_entityType f) "client")) (followUps d) /\
  prospects d' = prospects d /\ phoneNumbers d' = phoneNumbers d /\ callLogs d' = callLogs d /\
  fst (getClientById clientId env (snd r)) = Ok None /\
  fst (getSalesByClient clientId env (snd r)) = Ok [] /\
  fst (getFollowUpsByEntity clientId "client" env (snd r)) = Ok [].
Proof.
  cbn. repeat split.
  - f_equal. destruct (find _ _) as [x|] eqn:E; [|reflexivity].
    apply find_some in E as [Hin Heq]. apply filter_In in Hin as [_ Hn].
    rewrite Heq in Hn. discriminate.
  - rewrite filter_negb_self. reflexivity.
  - rewrite filter_negb_self. reflexivity.
Qed.

(** X3: [deleteClient] runs three statements without a transaction: when the
    follow-up delete succeeds and the sales delete fails, the call raises while
    the client's follow-ups are gone and the client and its sales remain. *)
Theorem deleteClient_partial_on_fault (env : Env) (c : Conn) (clientId : nat)
  (H0 : faults env (stmtNo c) = false) (H1 : faults env (S (stmtNo c)) = true) :
  let r := deleteClient clientId env c in
  fst r = Err StorageFault /\
  store (snd r) = snd (sql_deleteFollowUps (fun f => Nat.eqb (f_entityId f) clientId
                         && String.eqb (f_entityType f) "client") (store c)).
Proof.
  cbv [deleteClient bind stmt]. rewrite H0. cbn. rewrite H1. split; reflexivity.
Qed.

Definition clientWithFollowUpDB : DB :=
  mkDB [mkClient 1 1 "Al" "555-0101" "al@a.example" "A Ltd" "Retail"] []
       [mkSale 1 1 "2024-06-01" 100 "Audit"]
       [mkFollowUp 1 1 "client" "2024-06-10" "call" 0 "2024-06-01T00:00:00.000Z"] [] []
       1 0 1 1 0 0.

Lemma deleteClient_partial_on_fault_witness :
  let env := mkEnv (fun n => Nat.eqb n 1) "" (fun _ => None) in
  faults env 0 = false /\ faults env 1 = true /\
  fst (deleteClient 1 env (mkConn clientWithFollowUpDB 0)) = Err StorageFault /\
  store (snd (deleteClient 1 env (mkConn clientWithFollowUpDB 0))) =
    snd (sql_deleteFollowUps (fun f => Nat.eqb (f_entityId f) 1
           && String.eqb (f_entityType f) "client") clientWithFollowUpDB).
Proof.
  cbv zeta. split; [reflexivity|]. split; [reflexivity|].
  exact (deleteClient_partial_on_fault (mkEnv (fun n => Nat.eqb n 1) "" (fun _ => None))
           (mkConn clientWithFollowUpDB 0) 1 eq_refl eq_refl).
Defined.

(** ** Deleting a prospect *)

(** X4: a fault-free [deleteProspect(id)] removes the prospect with that id and
    the follow-ups addressed to it as a prospect; every follow-up of another
    entity type (a client or phone number with the same id) is kept, and the
    other tables are untouched. *)
Theorem deleteProspect_cascade (t : string) (dm : string -> option string) (c : Conn)
  (prospectId : nat) :
  let env := noFaults t dm in
  let r := deleteProspect prospectId env c in
  let d := store c in
  let d' := store (snd r) in
  fst r = Ok tt /\
  prospects d' = filter (fun p => negb (Nat.eqb (p_id p) prospectId)) (prospects d) /\
  (forall f, In f (followUps d') <->
             In f (followUps d) /\
             ~ (f_entityId f = prospectId /\ f_entityType f = "prospect")) /\
  clients d' = clients d /\ sales d' = sales d /\ phoneNumbers d' = phoneNumbers d /\
  callLogs d' = callLogs d /\
  fst (getFollowUpsByEntity prospectId "prospect" env (snd r)) = Ok [].
Proof.
  cbn. split; [reflexivity|]. split; [reflexivity|]. split.
  - intros f. rewrite filter_In, negb_true_iff, andb_false_iff, Nat.eqb_neq, String.eqb_neq.
    split; intros [Hin H]; split; auto; tauto || (destruct (Nat.eq_dec (f_entityId f) prospectId); tauto).
  - repeat split. rewrite filter_negb_self. reflexivity.
Qed.

(** ** Updates that change nothing *)

(** X5: [updateProspect], [updateSale] and [updateCallLog] with no field
    supplied return early: no statement runs and the connection is unchanged,
    under any faults. *)
Theorem updates_without_fields_noop (env : Env) (c : Conn) (i : nat) :
  updateProspect i (mkProspectUpdates None None None None None None) env c = (Ok tt, c) /\
  updateSale i (mkSaleUpdates None None None) env c = (Ok tt, c) /\
  updateCallLog i (mkCallLogUpdates None None None None None) env c = (Ok tt, c).
Proof. repeat split. Qed.

(** X6: [updateFollowUp] tests its fields for truthiness, so a [date] and
    [notes] that are absent or empty strings make it a no-op. *)
Theorem updateFollowUp_falsy_noop (env : Env) (c : Conn) (i : nat) (date notes : option string)
  (Hd : truthy date = false) (Hn : truthy notes = false) :
  updateFollowUp i date notes env c = (Ok tt, c).
Proof. unfold updateFollowUp. rewrite Hd, Hn. reflexivity. Qed.

Lemma updateFollowUp_falsy_noop_witness :
  truthy (Some "") = false /\ truthy None = false /\
  updateFollowUp 1 (Some "") None noFaults0 (mkConn clientWithFollowUpDB 0)
    = (Ok tt, mkConn clientWithFollowUpDB 0).
Proof.
  split; [reflexivity|]. split; [reflexivity|].
  exact (updateFollowUp_falsy_noop noFaults0 (mkConn clientWithFollowUpDB 0) 1
           (Some "") None eq_refl eq_refl).
Defined.

(** X7: an update keyed by an id that no row has changes no table:
    [updateClient], [updateProspect], [updateProspectStatus], [updateSale],
    [completeFollowUp] and [updateCallLog] all leave the store as it was and
    return normally when run without faults. *)
Theorem updates_of_absent_id_noop (t : string) (dm : string -> option string) (c : Conn)
  (i : nat) (cu : ClientUpdates) (pu : ProspectUpdates) (status : string)
  (su : SaleUpdates) (lu : CallLogUpdates)
  (Hc : ~ In i (map c_id (clients (store c))))
  (Hp : ~ In i (map p_id (prospects (store c))))
  (Hs : ~ In i (map s_id (sales (store c))))
  (Hf : ~ In i (map f_id (followUps (store c))))
  (Hl : ~ In i (map cl_id (callLogs (store c)))) :
  let env := noFaults t dm in
  let d := store c in
  (fst (updateClient i cu env c) = Ok tt /\ store (snd (updateClient i cu env c)) = d) /\
  (fst (updateProspect i pu env c) = Ok tt /\ store (snd (updateProspect i pu env c)) = d) /\
  (fst (updateProspectStatus i status env c) = Ok tt /\
   store (snd (updateProspectStatus i status env c)) = d) /\
  (fst (updateSale i su env c) = Ok tt /\ store (snd (updateSale i su env c)) = d) /\
  (fst (completeFollowUp i env c) = Ok tt /\ store (snd (completeFollowUp i env c)) = d) /\
  (fst (updateCallLog i lu env c) = Ok tt /\ store (snd (updateCallLog i lu env c)) = d).
Proof.
  destruct c as [[cs ps ss fs ns ls q1 q2 q3 q4 q5 q6] n]; cbn in *.
  repeat split.
  - unfold updateClient. destruct (clientUpdateFields cu); reflexivity.
  - unfold updateClient. destruct (clientUpdateFields cu); [reflexivity|].
    cbn. unfold set_clients; cbn. rewrite (map_update_absent c_id); auto.
  - unfold updateProspect. destruct (prospectUpdateFields pu); reflexivity.
  - unfold updateProspect. destruct (prospectUpdateFields pu); [reflexivity|].
    cbn. unfold set_prospects; cbn. rewrite (map_update_absent p_id); auto.
  - cbn. unfold set_prospects; cbn. rewrite (map_update_absent p_id); auto.
  - unfold updateSale. destruct (saleUpdateFields su); reflexivity.
  - unfold updateSale. destruct (saleUpdateFields su); [reflexivity|].
    cbn. unfold set_sales; cbn. rewrite (map_update_absent s_id); auto.
  - cbn. unfold set_followUps; cbn. rewrite (map_update_absent f_id); auto.
  - unfold updateCallLog. destruct (callLogUpdateFields lu); reflexivity.
  - unfold updateCallLog. destruct (callLogUpdateFields lu); [reflexivity|].
    cbn. unfold set_callLogs; cbn. rewrite (map_update_absent cl_id); auto.
Qed.

Lemma updates_of_absent_id_noop_witness :
  let c := mkConn clientWithFollowUpDB 0 in
  let cu := mkClientUpdates (Some "Alan") None None None None in
  let pu := mkProspectUpdates None None None None (Some "Won") None in
  let su := mkSaleUpdates None (Some 5) None in
  let lu := mkCallLogUpdates None (Some "DNC") None None None in
  ~ In 9%nat (map c_id (clients (store c))) /\ ~ In 9%nat (map p_id (prospects (store c))) /\
  ~ In 9%nat (map s_id (sales (store c))) /\ ~ In 9%nat (map f_id (followUps (store c))) /\
  ~ In 9%nat (map cl_id (callLogs (store c))) /\
  store (snd (updateClient 9 cu noFaults0 c)) = store c /\
  store (snd (updateSale 9 su noFaults0 c)) = store c.
Proof.
  cbv zeta.
  assert (Hc : ~ In 9%nat (map c_id (clients clientWithFollowUpDB)))
    by (cbn; intros [H|H]; [discriminate|contradiction]).
  assert (Hp : ~ In 9%nat (map p_id (prospects clientWithFollowUpDB))) by (cbn; tauto).
  assert (Hs : ~ In 9%nat (map s_id (sales clientWithFollowUpDB)))
    by (cbn; intros [H|H]; [discriminate|contradiction]).
  assert (Hf : ~ In 9%nat (map f_id (followUps clientWithFollowUpDB)))
    by (cbn; intros [H|H]; [discriminate|contradiction]).
  assert (Hl : ~ In 9%nat (map cl_id (callLogs clientWithFollowUpDB))) by (cbn; tauto).
  destruct (updates_of_absent_id_noop "" (fun _ => None) (mkConn clientWithFollowUpDB 0) 9
              (mkClientUpdates (Some "Alan") None None None None)
              (mkProspectUpdates None None None None (Some "Won") None) "Won"
              (mkSaleUpdates None (Some 5) None)
              (mkCallLogUpdates None (Some "DNC") None None None)
              Hc Hp Hs Hf Hl) as ((_ & E1) & _ & _ & (_ & E2) & _).
  repeat split; assumption.
Defined.

(** ** Field-wise updates *)

(** What the caller asks of an update: each supplied field replaces the row's
    value, each absent one keeps it. *)
Definition orElse {A} (o : option A) (x : A) : A := match o with Some v => v | None => x end.

Definition overrideClient (u : ClientUpdates) (x : Client) : Client :=
  mkClient (c_id x) (c_userId x) (orElse (u_name u) (c_name x)) (orElse (u_phone u) (c_phone x))
    (orElse (u_email u) (c_email x)) (orElse (u_company u) (c_company x))
    (orElse (u_industry u) (c_industry x)).

Definition overrideProspect (u : ProspectUpdates) (x : Prospect) : Prospect :=
  mkProspect (p_id x) (p_userId x) (orElse (pu_name u) (p_name x)) (orElse (pu_phone u) (p_phone x))
    (orElse (pu_email u) (p_email x)) (orElse (pu_company u) (p_company x))
    (orElse (pu_status u) (p_status x)) (orElse (pu_followUpDate u) (p_followUpDate x)).

Definition overrideSale (u : SaleUpdates) (x : Sale) : Sale :=
  mkSale (s_id x) (s_clientId x) (orElse (su_date u) (s_date x)) (orElse (su_amount u) (s_amount x))
    (orElse (su_productOrService u) (s_productOrService x)).

Lemma fold_setClientField (u : ClientUpdates) (x : Client) :
  fold_left setClientField (clientUpdateFields u) x = overrideClient u x.
Proof. destruct x, u as [[?|] [?|] [?|] [?|] [?|]]; reflexivity. Qed.

Lemma fold_setProspectField (u : ProspectUpdates) (x : Prospect) :
  fold_left setProspectField (prospectUpdateFields u) x = overrideProspect u x.
Proof. destruct x, u as [[?|] [?|] [?|] [?|] [?|] [?|]]; reflexivity. Qed.

Lemma fold_setSaleField (u : SaleUpdates) (x : Sale) :
  fold_left setSaleField (saleUpdateFields u) x = overrideSale u x.
Proof. destruct x, u as [[?|] [?|] [?|]]; reflexivity. Qed.

Lemma map_if_id {A} (b : A -> bool) (g : A -> A) (l : list A) :
  (forall x, g x = x) -> map (fun x => if b x then g x else x) l = l.
Proof.
  intros Hg. induction l as [|a l IH]; cbn; [reflexivity|].
  rewrite IH. destruct (b a); [rewrite Hg|]; reflexivity.
Qed.

(** X8: run without faults, [updateClient], [updateProspect] and [updateSale]
    overwrite, on the row with the given id only, exactly the supplied fields;
    the id, the owner (or client) and every absent field keep their values,
    and the other tables are unchanged. *)
Theorem updates_override_supplied_fields (t : string) (dm : string -> option string)
  (c : Conn) (i : nat) (cu : ClientUpdates) (pu : ProspectUpdates) (su : SaleUpdates) :
  let env := noFaults t dm in
  let d := store c in
  (fst (updateClient i cu env c) = Ok tt /\
   store (snd (updateClient i cu env c)) =
     set_clients d (map (fun x => if Nat.eqb (c_id x) i then overrideClient cu x else x)
                      (clients d)) (seqClients d)) /\
  (fst (updateProspect i pu env c) = Ok tt /\
   store (snd (updateProspect i pu env c)) =
     set_prospects d (map (fun x => if Nat.eqb (p_id x) i then overrideProspect pu x else x)
                        (prospects d)) (seqProspects d)) /\
  (fst (updateSale i su env c) = Ok tt /\
   store (snd (updateSale i su env c)) =
     set_sales d (map (fun x => if Nat.eqb (s_id x) i then overrideSale su x else x)
                    (sales d)) (seqSales d)).
Proof.
  cbv zeta. split; [|split].
  - unfold updateClient. destruct (clientUpdateFields cu) eqn:E; split; try reflexivity.
    + cbn. rewrite map_if_id; [destruct (store c); reflexivity|].
      intros x. rewrite <- fold_setClientField, E. destruct x; reflexivity.
    + cbv [stmt noFaults faults store stmtNo sql_updateClient fst snd]. rewrite <- E.
      f_equal. apply map_ext. intros x. rewrite fold_setClientField. reflexivity.
  - unfold updateProspect. destruct (prospectUpdateFields pu) eqn:E; split; try reflexivity.
    + cbn. rewrite map_if_id; [destruct (store c); reflexivity|].
      intros x. rewrite <- fold_setProspectField, E. destruct x; reflexivity.
    + cbv [stmt noFaults faults store stmtNo fst snd]. rewrite <- E.
      f_equal. apply map_ext. intros x. rewrite fold_setProspectField. reflexivity.
  - unfold updateSale. destruct (saleUpdateFields su) eqn:E; split; try reflexivity.
    + cbn. rewrite map_if_id; [destruct (store c); reflexivity|].
      intros x. rewrite <- fold_setSaleField, E. destruct x; reflexivity.
    + cbv [stmt noFaults faults store stmtNo fst snd]. rewrite <- E.
      f_equal. apply map_ext. intros x. rewrite fold_setSaleField. reflexivity.
Qed.

(** ** Rows written by [recordNewCall] and [addFollowUp] *)

(** X9: a fault-free [recordNewCall] returns a phone number that is a row of
    the store after the call, for this user and number and dated with this
    call, and a call log that is the one row appended to CallLogs, pointing at
    that phone number; it appends a "phoneNumber" follow-up for that phone
    number exactly when [nextFollowUpDate] is truthy, and no follow-up
    otherwise. *)
Theorem recordNewCall_rows (t : string) (dm : string -> option string) (c : Conn)
  (userId : nat) (number : string) (logData : LogData) :
  let r := recordNewCall userId number logData (noFaults t dm) c in
  let d := store c in
  let d' := store (snd r) in
  exists pn cl, fst r = Ok (pn, cl) /\
    In pn (phoneNumbers d') /\ pn_userId pn = userId /\ pn_number pn = number /\
    pn_lastCalledDate pn = ld_date logData /\
    callLogs d' = callLogs d ++ [cl] /\ cl_phoneNumberId cl = pn_id pn /\
    cl_date cl = ld_date logData /\ cl_feedback cl = ld_feedback logData /\
    followUps d' = followUps d ++
      (if truthy (ld_nextFollowUpDate logData)
       then [mkFollowUp (nextId (seqFollowUps d)) (pn_id pn) "phoneNumber"
               (orElse (ld_nextFollowUpDate logData) "")
               (String.append "Follow-up call for " number) 0 t]
       else []).
Proof.
  cbn.
  destruct (find (samePair userId number) (phoneNumbers (store c))) as [pn|] eqn:E.
  - apply find_some in E as [Hin Hpair]. unfold samePair in Hpair.
    apply andb_prop in Hpair as [Hu Hn]. apply Nat.eqb_eq in Hu. apply String.eqb_eq in Hn.
    assert (Hrow : In (mkPhoneNumber (pn_id pn) (pn_userId pn) (pn_number pn) (ld_date logData)
                         (pn_isProspect pn) (pn_prospectId pn))
                      (map (fun p => if Nat.eqb (pn_id p) (pn_id pn)
                              then mkPhoneNumber (pn_id p) (pn_userId p) (pn_number p)
                                     (ld_date logData) (pn_isProspect p) (pn_prospectId p)
                              else p) (phoneNumbers (store c)))).
    { apply in_map_iff. exists pn. rewrite Nat.eqb_refl. split; [reflexivity|exact Hin]. }
    destruct (truthy (ld_nextFollowUpDate logData)) eqn:Et; cbn.
    all: do 2 eexists; split; [reflexivity|].
    all: repeat split; auto; rewrite ?app_nil_r; try reflexivity.
    all: destruct (ld_nextFollowUpDate logData); reflexivity.
  - cbv [bind stmt query ret clock sql_insertPhoneNumber noFaults faults]; cbn.
    rewrite (find_none_existsb _ _ E). cbn.
    destruct (truthy (ld_nextFollowUpDate logData)) eqn:Et; cbn.
    all: do 2 eexists; split; [reflexivity|].
    all: repeat split; rewrite ?app_nil_r; try reflexivity.
    all: try (apply in_or_app; right; left; reflexivity).
    all: destruct (ld_nextFollowUpDate logData); reflexivity.
Qed.

(** X10: a fault-free [addFollowUp] returns the row it appended, stamped with
    the clock's time, and [getFollowUpsByEntity] for the same entity id and
    type then lists it. *)
Theorem addFollowUp_then_byEntity (t : string) (dm : string -> option string) (c : Conn)
  (fi : FollowUpInput) :
  let env := noFaults t dm in
  let r := addFollowUp fi env c in
  exists f, fst r = Ok f /\
    followUps (store (snd r)) = followUps (store c) ++ [f] /\
    f_createdAt f = t /\ f_entityId f = fi_entityId fi /\ f_entityType f = fi_entityType fi /\
    exists l, fst (getFollowUpsByEntity (fi_entityId fi) (fi_entityType fi) env (snd r)) = Ok l
              /\ In f l.
Proof.
  cbn. eexists. split; [reflexivity|]. repeat split.
  eexists. split; [reflexivity|]. apply in_sortBy, filter_In. split.
  - apply in_or_app. right. left. reflexivity.
  - cbn. rewrite Nat.eqb_refl, String.eqb_refl. reflexivity.
Qed.

(** ** Daily call statistics *)

Definition knownFeedbacks : list string :=
  ["Successful"; "Busy"; "Not Answered"; "DNC"; "Connected-Lead"].

Definition categorised (st : DailyCallStats) : nat :=
  (ds_successful st + ds_busy st + ds_notAnswered st + ds_dnc st + ds_leads st)%nat.

Lemma countFeedback_total (st : DailyCallStats) (fb : string) :
  ds_totalCalls (countFeedback st fb) = ds_totalCalls st.
Proof.
  destruct st. cbn.
  repeat match goal with |- context [String.eqb ?a ?b] => destruct (String.eqb a b) end;
  reflexivity.
Qed.

Lemma countFeedback_categorised (st : DailyCallStats) (fb : string) :
  categorised (countFeedback st fb) =
  (categorised st + (if in_dec string_dec fb knownFeedbacks then 1 else 0))%nat.
Proof.
  destruct st. unfold countFeedback, categorised. cbn [ds_successful ds_busy ds_notAnswered ds_dnc ds_leads].
  destruct (String.eqb fb "Successful") eqn:E1;
    [apply String.eqb_eq in E1; subst; cbn; lia|].
  destruct (String.eqb fb "Busy") eqn:E2; [apply String.eqb_eq in E2; subst; cbn; lia|].
  destruct (String.eqb fb "Not Answered") eqn:E3; [apply String.eqb_eq in E3; subst; cbn; lia|].
  destruct (String.eqb fb "DNC") eqn:E4; [apply String.eqb_eq in E4; subst; cbn; lia|].
  destruct (String.eqb fb "Connected-Lead") eqn:E5; [apply String.eqb_eq in E5; subst; cbn; lia|].
  apply String.eqb_neq in E1, E2, E3, E4, E5.
  destruct (in_dec string_dec fb knownFeedbacks) as [Hin|Hnin].
  - exfalso. cbn in Hin. intuition congruence.
  - cbn. lia.
Qed.

Lemma fold_countFeedback (fbs : list string) (st : DailyCallStats) :
  ds_totalCalls (fold_left countFeedback fbs st) = ds_totalCalls st /\
  categorised (fold_left countFeedback fbs st) =
  (categorised st + List.length (filter (fun fb => if in_dec string_dec fb knownFeedbacks
                                                   then true else false) fbs))%nat.
Proof.
  revert st. induction fbs as [|fb fbs IH]; intros st; cbn [fold_left filter List.length];
    [split; lia|].
  destruct (IH (countFeedback st fb)) as [H1 H2]. rewrite H1, H2, countFeedback_total,
    countFeedback_categorised.
  split; [reflexivity|]. destruct (in_dec string_dec fb knownFeedbacks); cbn [List.length]; lia.
Qed.

Lemma length_filter_le {A} (f : A -> bool) (l : list A) :
  (List.length (filter f l) <= List.length l)%nat.
Proof. induction l as [|a l IH]; cbn; [lia|]. destruct (f a); cbn; lia. Qed.

Lemma filter_all_true {A} (f : A -> bool) (l : list A) :
  (forall x, In x l -> f x = true) -> filter f l = l.
Proof.
  induction l as [|a l IH]; cbn; intros H; [reflexivity|].
  rewrite (H a (or_introl eq_refl)), IH; auto.
Qed.

Lemma filter_length_eq {A} (f : A -> bool) (l : list A) :
  List.length (filter f l) = List.length l -> forall x, In x l -> f x = true.
Proof.
  induction l as [|a l IH]; cbn; intros Hlen x Hx; [contradiction|].
  destruct (f a) eqn:Ea.
  - destruct Hx as [<-|Hx]; [exact Ea|]. cbn in Hlen. apply IH; [lia|exact Hx].
  - pose proof (length_filter_le f l). lia.
Qed.

Lemma sameDay_iff (o1 o2 : option string) :
  match o1, o2 with Some a, Some b => String.eqb a b | _, _ => false end = true <->
  exists a, o1 = Some a /\ o2 = Some a.
Proof.
  destruct o1 as [a|], o2 as [b|]; split; try discriminate;
    try (intros (x & H1 & H2); discriminate).
  - intros H. apply String.eqb_eq in H. subst. eauto.
  - intros (x & H1 & H2). injection H1 as <-. injection H2 as <-. apply String.eqb_refl.
Qed.

(** X11: the five feedback counts of [getDailyCallStats] never add up to more
    than [totalCalls], and add up to it exactly when every call log it counts
    (one of a phone number of the user, on the same day by [DATE()]) has one
    of the five known feedback values; other values are counted in
    [totalCalls] only (run without faults). *)
Theorem getDailyCallStats_counts (sqlDate : string -> option string) (userId : nat)
  (date : string) (t : string) (dm : string -> option string) (c : Conn) :
  exists st, fst (getDailyCallStats sqlDate userId date (noFaults t dm) c) = Ok st /\
    (categorised st <= ds_totalCalls st)%nat /\
    (categorised st = ds_totalCalls st <->
     forall l p, In l (callLogs (store c)) -> In p (phoneNumbers (store c)) ->
       pn_id p = cl_phoneNumberId l -> pn_userId p = userId ->
       (exists a, sqlDate (cl_date l) = Some a /\ sqlDate (beforeT date) = Some a) ->
       In (cl_feedback l) knownFeedbacks).
Proof.
  cbv [getDailyCallStats bind query stmt noFaults faults ret fst].
  match goal with |- context [fold_left countFeedback ?l _] => set (fbs := l) end.
  assert (Hmem : forall l p, In l (callLogs (store c)) -> In p (phoneNumbers (store c)) ->
            pn_id p = cl_phoneNumberId l -> pn_userId p = userId ->
            (exists a, sqlDate (cl_date l) = Some a /\ sqlDate (beforeT date) = Some a) ->
            In (cl_feedback l) fbs).
  { intros l p Hl Hp H1 H2 H3. subst fbs. apply in_map_iff. exists (l, p). split; [reflexivity|].
    apply in_sortBy, in_flat_map. exists l. split; [exact Hl|]. apply in_map, filter_In.
    split; [exact Hp|]. rewrite H1, H2, !Nat.eqb_refl. apply sameDay_iff, H3. }
  assert (Hmem' : forall fb, In fb fbs -> exists l p, In l (callLogs (store c)) /\
            In p (phoneNumbers (store c)) /\ pn_id p = cl_phoneNumberId l /\
            pn_userId p = userId /\
            (exists a, sqlDate (cl_date l) = Some a /\ sqlDate (beforeT date) = Some a) /\
            fb = cl_feedback l).
  { intros fb Hfb. subst fbs. apply in_map_iff in Hfb as (r & <- & Hr).
    apply in_sortBy, in_flat_map in Hr as (l & Hl & Hr). apply in_map_iff in Hr as (p & <- & Hp).
    apply filter_In in Hp as [Hp Hb]. apply andb_prop in Hb as [Hb H3].
    apply andb_prop in Hb as [H1 H2]. apply Nat.eqb_eq in H1, H2. apply sameDay_iff in H3.
    exists l, p. cbn [fst]. auto 6. }
  clearbody fbs. eexists. split; [reflexivity|].
  destruct (fold_countFeedback fbs (mkDailyCallStats (List.length fbs) 0 0 0 0 0)) as [H1 H2].
  rewrite H1, H2. unfold categorised. cbn [ds_totalCalls ds_successful ds_busy ds_notAnswered ds_dnc ds_leads].
  set (k := fun fb => if in_dec string_dec fb knownFeedbacks then true else false).
  split; [pose proof (length_filter_le k fbs); lia|]. split.
  - intros Heq l p Hl Hp Hid Hu Hd.
    pose proof (filter_length_eq k fbs ltac:(lia) _ (Hmem l p Hl Hp Hid Hu Hd)) as Hk.
    unfold k in Hk. destruct (in_dec string_dec _ knownFeedbacks); [assumption|discriminate].
  - intros Hall. rewrite filter_all_true; [lia|].
    intros fb Hfb. destruct (Hmem' fb Hfb) as (l & p & Hl & Hp & Hid & Hu & Hd & ->).
    unfold k. destruct (in_dec string_dec _ knownFeedbacks) as [|Hn]; [reflexivity|].
    exfalso. apply Hn. exact (Hall l p Hl Hp Hid Hu Hd).
Qed.

(** ** Totals of [getAnalyticsData] *)

Definition sumN {A} (f : A -> nat) (l : list A) : nat :=
  fold_right (fun x acc => (f x + acc)%nat) 0%nat l.

Lemma sumN_insertBy {A} (f : A -> nat) (le : A -> A -> bool) (x : A) (l : list A) :
  sumN f (insertBy le x l) = (f x + sumN f l)%nat.
Proof.
  unfold sumN. induction l as [|y l IH]; cbn; [reflexivity|].
  destruct (le x y); cbn; [reflexivity|]. rewrite IH. lia.
Qed.

Lemma sumN_sortBy {A} (f : A -> nat) (le : A -> A -> bool) (l : list A) :
  sumN f (sortBy le l) = sumN f l.
Proof.
  induction l as [|x l IH]; cbn [sortBy]; [reflexivity|].
  rewrite sumN_insertBy, IH. reflexivity.
Qed.

Lemma sumN_firstn_le {A} (f : A -> nat) (n : nat) (l : list A) :
  (sumN f (firstn n l) <= sumN f l)%nat.
Proof.
  unfold sumN. revert n. induction l as [|x l IH]; intros [|n]; cbn; try lia.
  specialize (IH n). lia.
Qed.

Lemma mapSet_sumN {V} (f : V -> nat) (m : list (string * V)) (k : string) (v dflt : V) :
  f dflt = 0%nat ->
  (sumN (fun e => f (snd e)) (mapSet m k v) + f (mapGetOr m k dflt) =
   sumN (fun e => f (snd e)) m + f v)%nat.
Proof.
  intros Hd. unfold sumN, mapGetOr in *.
  induction m as [|[k0 v0] m IH]; cbn; [lia|].
  destruct (String.eqb k0 k); cbn; lia.
Qed.

Lemma NoDup_snoc {A} (l : list A) (x : A) : NoDup l -> ~ In x l -> NoDup (l ++ [x]).
Proof.
  induction l as [|a l IH]; cbn; intros Hnd Hx; [repeat constructor; auto|].
  inversion Hnd as [|? ? Ha Hl]; subst. constructor.
  - rewrite in_app_iff. intros [H|[H|H]]; [tauto|subst; tauto|contradiction].
  - apply IH; tauto.
Qed.

Lemma NoDup_mapSet {V} (m : list (string * V)) (k : string) (v : V) :
  NoDup (map fst m) -> NoDup (map fst (mapSet m k v)).
Proof.
  intros H. rewrite mapSet_keys.
  destruct (in_dec string_dec k (map fst m)); [rewrite app_nil_r; exact H|].
  apply NoDup_snoc; assumption.
Qed.

Lemma tally_fold {A} (key : A -> string) (l : list A) (m : list (string * nat)) :
  let r := fold_left (fun m a => mapSet m (key a) (S (mapGetOr m (key a) 0%nat))) l m in
  sumN snd r = (sumN snd m + List.length l)%nat /\
  (NoDup (map fst m) -> NoDup (map fst r)).
Proof.
  revert m. induction l as [|a l IH]; intros m; cbn [fold_left List.length].
  - split; [lia|auto].
  - destruct (IH (mapSet m (key a) (S (mapGetOr m (key a) 0%nat)))) as [H1 H2].
    split.
    + rewrite H1.
      pose proof (mapSet_sumN (fun n : nat => n) m (key a) (S (mapGetOr m (key a) 0%nat)) 0%nat
                    eq_refl) as H. cbv beta in H.
      change (fun e : string * nat => snd e) with (@snd string nat) in H. lia.
    + intros Hnd. apply H2, NoDup_mapSet, Hnd.
Qed.

Lemma tally_spec {A} (key : A -> string) (l : list A) :
  sumN snd (tally key l) = List.length l /\ NoDup (map fst (tally key l)).
Proof.
  unfold tally. destruct (tally_fold key l []) as [H1 H2].
  split; [exact H1|apply H2; constructor].
Qed.

Lemma completed_pending (fus : list FollowUp) :
  (List.length (filter (fun f => Nat.eqb (f_isCompleted f) 1) fus) +
   List.length (filter (fun f => Nat.eqb (f_isCompleted f) 0) fus) <= List.length fus)%nat /\
  (Forall (fun f => (f_isCompleted f <= 1)%nat) fus ->
   (List.length (filter (fun f => Nat.eqb (f_isCompleted f) 1) fus) +
    List.length (filter (fun f => Nat.eqb (f_isCompleted f) 0) fus))%nat = List.length fus).
Proof.
  induction fus as [|f fus [IH1 IH2]]; cbn; [split; [lia|reflexivity]|].
  split.
  - destruct (Nat.eqb (f_isCompleted f) 1) eqn:E1, (Nat.eqb (f_isCompleted f) 0) eqn:E0;
      apply Nat.eqb_eq in E1 || apply Nat.eqb_neq in E1;
      apply Nat.eqb_eq in E0 || apply Nat.eqb_neq in E0; cbn; lia.
  - intros Hall. inversion Hall as [|? ? Hf Hfus]; subst. specialize (IH2 Hfus).
    destruct (Nat.eqb (f_isCompleted f) 1) eqn:E1, (Nat.eqb (f_isCompleted f) 0) eqn:E0;
      apply Nat.eqb_eq in E1 || apply Nat.eqb_neq in E1;
      apply Nat.eqb_eq in E0 || apply Nat.eqb_neq in E0; cbn; lia.
Qed.

(** X12: whenever [getAnalyticsData]'s in-memory part succeeds, the
    [prospectsByStatus] and [callsByFeedback] tallies have distinct keys and
    add up to [totalProspects] and [totalCalls]; [completedFollowUps] and
    [pendingFollowUps] add up to at most [totalFollowUps], and exactly to it
    when every [isCompleted] is 0 or 1. *)
Theorem computeAnalytics_tallies (dm : string -> option string) (ss : list Sale)
  (cs : list Client) (ps : list Prospect) (logs : list (CallLog * string))
  (fus : list FollowUp) (a : AnalyticsData)
  (H : computeAnalytics dm ss cs ps logs fus = Ok a) :
  sumN snd (prospectsByStatus a) = totalProspects a /\
  NoDup (map fst (prospectsByStatus a)) /\
  sumN snd (callsByFeedback a) = totalCalls a /\
  NoDup (map fst (callsByFeedback a)) /\
  (completedFollowUps a + pendingFollowUps a <= totalFollowUps a)%nat /\
  (Forall (fun f => (f_isCompleted f <= 1)%nat) fus ->
   (completedFollowUps a + pendingFollowUps a)%nat = totalFollowUps a).
Proof.
  unfold computeAnalytics in H. destruct (monthMap dm ss); [|discriminate].
  injection H as <-. cbn.
  destruct (tally_spec p_status ps) as [Hp1 Hp2].
  destruct (tally_spec (fun r : CallLog * string => cl_feedback (fst r)) logs) as [Hl1 Hl2].
  destruct (completed_pending fus) as [Hf1 Hf2].
  repeat split; assumption.
Qed.

Definition monthOf (date : string) : option string := Some (substring 0 7 date).

Definition salesSample : list Sale :=
  [mkSale 1 1 "2024-05-02" 100 "Audit"; mkSale 2 1 "2024-06-01" 50 "Audit";
   mkSale 3 2 "2024-05-20" 30 "Setup"].

Definition prospectsSample : list Prospect :=
  [mkProspect 1 1 "Bo" "" "" "" "Won" "2024-07-01";
   mkProspect 2 1 "Cy" "" "" "" "New" "2024-07-02";
   mkProspect 3 1 "Di" "" "" "" "Won" "2024-07-03"].

Definition logsSample : list (CallLog * string) :=
  [(mkCallLog 1 1 "2024-06-01" "Busy" 0 "" None, "555-0101");
   (mkCallLog 2 1 "2024-06-02" "Successful" 0 "" None, "555-0101")].

Definition followUpsSample : list FollowUp :=
  [mkFollowUp 1 1 "client" "2024-06-10" "" 1 ""; mkFollowUp 2 1 "client" "2024-06-11" "" 0 ""].

Definition emptyAnalytics : AnalyticsData :=
  mkAnalyticsData 0 0 0 0 0 0 0 0 0 [] [] [] [].

Definition sampleAnalytics : AnalyticsData :=
  match computeAnalytics monthOf salesSample [] prospectsSample logsSample followUpsSample with
  | Ok a => a
  | Err _ => emptyAnalytics
  end.

Lemma computeAnalytics_tallies_witness :
  computeAnalytics monthOf salesSample [] prospectsSample logsSample followUpsSample
    = Ok sampleAnalytics /\
  sumN snd (prospectsByStatus sampleAnalytics) = totalProspects sampleAnalytics.
Proof.
  assert (H : computeAnalytics monthOf salesSample [] prospectsSample logsSample followUpsSample
                = Ok sampleAnalytics) by (vm_compute; reflexivity).
  split; [exact H|].
  exact (proj1 (computeAnalytics_tallies monthOf salesSample [] prospectsSample logsSample
                  followUpsSample sampleAnalytics H)).
Defined.

Lemma monthMap_err (dm : string -> option string) (ss : list Sale) (e : DbError) :
  fold_left (fun acc s =>
    match acc with
    | Err e => Err e
    | Ok m =>
        match dm s.(s_date) with
        | None => Err InvalidDate
        | Some month =>
            let existing := mapGetOr m month (0, 0%nat) in
            Ok (mapSet m month (fst existing + s.(s_amount), S (snd existing)))
        end
    end) ss (Err e) = Err e.
Proof. induction ss as [|s ss IH]; cbn; [reflexivity|exact IH]. Qed.

Lemma monthMap_fold (dm : string -> option string) (ss : list Sale)
  (m mm : list (string * (Q * nat))) :
  fold_left (fun acc s =>
    match acc with
    | Err e => Err e
    | Ok m =>
        match dm s.(s_date) with
        | None => Err InvalidDate
        | Some month =>
            let existing := mapGetOr m month (0, 0%nat) in
            Ok (mapSet m month (fst existing + s.(s_amount), S (snd existing)))
        end
    end) ss (Ok m) = Ok mm ->
  sumN (fun e => snd (snd e)) mm = (sumN (fun e => snd (snd e)) m + List.length ss)%nat /\
  (NoDup (map fst m) -> NoDup (map fst mm)).
Proof.
  revert m. induction ss as [|s ss IH]; intros m H; cbn [fold_left] in H.
  - injection H as <-. cbn [List.length]. split; [lia|auto].
  - destruct (dm (s_date s)) as [month|]; [|rewrite monthMap_err in H; discriminate].
    cbv zeta in H. apply IH in H as (H1 & H3).
    set (ex := mapGetOr m month (0, 0%nat)) in *.
    pose proof (mapSet_sumN (fun v : Q * nat => snd v) m month
                  (fst ex + s_amount s, S (snd ex)) (0, 0%nat) eq_refl) as HN.
    cbv beta in HN. fold ex in HN. cbn [fst snd] in HN. cbn [List.length].
    split; [lia|].
    intros Hnd. apply H3, NoDup_mapSet, Hnd.
Qed.

Lemma ascBy_total {A} (key : A -> string) (a b : A) :
  ascBy key a b = false -> ascBy key b a = true.
Proof. unfold ascBy. destruct (String.leb_total (key a) (key b)); congruence. Qed.

Lemma insertBy_sorted_gen {A} (le : A -> A -> bool) (x : A) (l : list A) :
  (forall a b, le a b = false -> le b a = true) ->
  Sorted (fun a b => le a b = true) l ->
  Sorted (fun a b => le a b = true) (insertBy le x l).
Proof.
  intros Htot. induction l as [|y l IH]; cbn; intros Hs; [repeat constructor|].
  destruct (le x y) eqn:E; [constructor; [exact Hs|constructor; exact E]|].
  inversion Hs as [|? ? Hs' Hhd]; subst. constructor; [apply IH, Hs'|].
  destruct l as [|z l]; cbn; [constructor; apply Htot, E|].
  destruct (le x z); constructor; [apply Htot, E|inversion Hhd; assumption].
Qed.

Lemma sortBy_sorted_gen {A} (le : A -> A -> bool) (l : list A) :
  (forall a b, le a b = false -> le b a = true) ->
  Sorted (fun a b => le a b = true) (sortBy le l).
Proof.
  intros Htot. induction l as [|x l IH]; cbn; [constructor|].
  apply insertBy_sorted_gen; assumption.
Qed.

(** X13: whenever [getAnalyticsData]'s in-memory part succeeds, [salesByMonth]
    has one row per month, sorted by month, and its counts add up to the
    number of sales. *)
Theorem computeAnalytics_salesByMonth (dm : string -> option string) (ss : list Sale)
  (cs : list Client) (ps : list Prospect) (logs : list (CallLog * string))
  (fus : list FollowUp) (a : AnalyticsData)
  (H : computeAnalytics dm ss cs ps logs fus = Ok a) :
  sumN mr_count (salesByMonth a) = List.length ss /\
  NoDup (map mr_month (salesByMonth a)) /\
  Sorted (fun x y => String.leb (mr_month x) (mr_month y) = true) (salesByMonth a).
Proof.
  unfold computeAnalytics in H. destruct (monthMap dm ss) as [mm|] eqn:E; [|discriminate].
  injection H as <-. cbn [salesByMonth totalRevenue].
  unfold monthMap in E. apply monthMap_fold in E as (H1 & H3).
  assert (Hmap : forall (A : Type) (f : MonthRow -> A),
            map f (map (fun '(month, (revenue, count)) => mkMonthRow month revenue count) mm)
            = map (fun e => f (mkMonthRow (fst e) (fst (snd e)) (snd (snd e)))) mm).
  { intros A f. rewrite map_map. apply map_ext. intros [? [? ?]]. reflexivity. }
  split; [|split].
  - rewrite sumN_sortBy. transitivity (sumN (fun e => snd (snd e)) mm); [|rewrite H1; reflexivity].
    clear. unfold sumN. induction mm as [|[? [? ?]] mm IH]; cbn; [reflexivity|].
    rewrite IH. reflexivity.
  - eapply Permutation_NoDup; [apply Permutation_map; symmetry; apply sortBy_perm|].
    rewrite Hmap. cbn. rewrite (map_ext _ fst); [apply H3; constructor|reflexivity].
  - apply sortBy_sorted_gen. apply ascBy_total.
Qed.

Lemma computeAnalytics_salesByMonth_witness :
  computeAnalytics monthOf salesSample [] prospectsSample logsSample followUpsSample
    = Ok sampleAnalytics /\
  sumN mr_count (salesByMonth sampleAnalytics) = List.length salesSample.
Proof.
  assert (H : computeAnalytics monthOf salesSample [] prospectsSample logsSample followUpsSample
                = Ok sampleAnalytics) by (vm_compute; reflexivity).
  split; [exact H|].
  exact (proj1 (computeAnalytics_salesByMonth monthOf salesSample [] prospectsSample logsSample
                  followUpsSample sampleAnalytics H)).
Defined.

Lemma productMap_fold (ss : list Sale) (m : list (string * (nat * Q))) :
  let r := fold_left (fun m s =>
    let existing := mapGetOr m s.(s_productOrService) (0%nat, 0) in
    mapSet m s.(s_productOrService) (S (fst existing), snd existing + s.(s_amount))) ss m in
  sumN (fun e => fst (snd e)) r = (sumN (fun e => fst (snd e)) m + List.length ss)%nat.
Proof.
  revert m. induction ss as [|s ss IH]; intros m; cbn [fold_left List.length]; [lia|].
  cbv zeta in *. set (ex := mapGetOr m (s_productOrService s) (0%nat, 0)).
  rewrite IH.
  pose proof (mapSet_sumN (fun v : nat * Q => fst v) m (s_productOrService s)
                (S (fst ex), snd ex + s_amount s) (0%nat, 0) eq_refl) as HN.
  cbv beta in HN. fold ex in HN. cbn [fst snd] in HN. lia.
Qed.

Lemma productEntries_totals (ss : list Sale) :
  sumN tp_count (productEntries ss) = List.length ss /\
  map tp_product (productEntries ss) = dedupFirst (map s_productOrService ss).
Proof.
  split.
  - unfold productEntries. set (r := productMap ss).
    assert (H1 : sumN (fun e => fst (snd e)) r = List.length ss)
      by exact (productMap_fold ss []).
    clearbody r. rewrite <- H1. clear. unfold sumN.
    induction r as [|[? [? ?]] r IH]; cbn; [reflexivity|]. rewrite IH. reflexivity.
  - rewrite <- (proj1 (productMap_spec ss)). unfold productEntries. rewrite map_map.
    apply map_ext. intros [? [? ?]]. reflexivity.
Qed.

(** X14: the sale counts in [topProducts] never add up to more than the number
    of sales; when the sales name at most five distinct products, every product
    is listed, once, and the counts add up to the number of sales. *)
Theorem topProducts_totals (ss : list Sale) :
  (sumN tp_count (computeTopProducts ss) <= List.length ss)%nat /\
  ((List.length (dedupFirst (map s_productOrService ss)) <= 5)%nat ->
   sumN tp_count (computeTopProducts ss) = List.length ss /\
   Permutation (map tp_product (computeTopProducts ss)) (dedupFirst (map s_productOrService ss))).
Proof.
  destruct (productEntries_totals ss) as [H1 H2]. unfold computeTopProducts. split.
  - rewrite <- H1. eapply Nat.le_trans; [apply sumN_firstn_le|]. rewrite sumN_sortBy. lia.
  - intros Hle. rewrite firstn_all2.
    + rewrite sumN_sortBy. split; [exact H1|].
      rewrite <- H2. apply Permutation_map, sortBy_perm.
    + rewrite (Permutation_length (sortBy_perm _ _)), <- (length_map tp_product), H2. exact Hle.
Qed.

(** ** Order and shape of the list queries *)

Lemma descBy_total {A} (key : A -> string) (a b : A) :
  descBy key a b = false -> descBy key b a = true.
Proof. unfold descBy. destruct (String.leb_total (key b) (key a)); congruence. Qed.

(** X15: each list query returns its rows in the order of its [ORDER BY]:
    [getClients] by name and [getProspects] by follow-up date ascending,
    [getFollowUps] by date ascending, [getSales], [getCallLogs],
    [getSalesByClient] and [getCallLogsByPhoneNumber] by date descending, and
    [getPhoneNumbers] by last-called date descending. *)
Theorem list_queries_ordered (env : Env) (c : Conn) (userId i : nat) :
  (forall l, fst (getClients userId env c) = Ok l ->
     Sorted (fun a b => String.leb (c_name a) (c_name b) = true) l) /\
  (forall l, fst (getProspects userId env c) = Ok l ->
     Sorted (fun a b => String.leb (p_followUpDate a) (p_followUpDate b) = true) l) /\
  (forall l, fst (getFollowUps userId env c) = Ok l ->
     Sorted (fun a b => String.leb (f_date a) (f_date b) = true) l) /\
  (forall l, fst (getSales userId env c) = Ok l ->
     Sorted (fun a b => String.leb (s_date (fst b)) (s_date (fst a)) = true) l) /\
  (forall l, fst (getCallLogs userId env c) = Ok l ->
     Sorted (fun a b => String.leb (cl_date (fst b)) (cl_date (fst a)) = true) l) /\
  (forall l, fst (getSalesByClient i env c) = Ok l ->
     Sorted (fun a b => String.leb (s_date b) (s_date a) = true) l) /\
  (forall l, fst (getCallLogsByPhoneNumber i env c) = Ok l ->
     Sorted (fun a b => String.leb (cl_date b) (cl_date a) = true) l) /\
  (forall l, fst (getPhoneNumbers userId env c) = Ok l ->
     Sorted (fun a b => String.leb (pn_lastCalledDate b) (pn_lastCalledDate a) = true) l).
Proof.
  repeat split; intros l H;
    unfold getClients, getProspects, getFollowUps, getSales, getCallLogs, getSalesByClient,
      getCallLogsByPhoneNumber, getPhoneNumbers, query, stmt in H;
    destruct (faults env (stmtNo c)); cbn in H; try discriminate;
    injection H as <-; apply sortBy_sorted_gen;
    first [apply ascBy_total | apply descBy_total].
Qed.

(** X16: the rows of [getSales] are exactly the pairs of a sale and the name of
    its client, for the sales whose client belongs to the user; a sale of
    another user's client never appears. *)
Theorem getSales_rows (d : DB) (userId : nat) (s : Sale) (name : string) :
  In (s, name) (selectSales userId d) <->
  In s (sales d) /\
  exists cl, In cl (clients d) /\ c_id cl = s_clientId s /\ c_userId cl = userId /\
             c_name cl = name.
Proof.
  unfold selectSales. rewrite in_sortBy, in_flat_map. split.
  - intros (s' & Hs' & Hin). apply in_map_iff in Hin as (cl & Heq & Hcl).
    injection Heq as Hs Hn. subst s'. apply filter_In in Hcl as [Hcl Hb].
    apply andb_prop in Hb as [H1 H2]. apply Nat.eqb_eq in H1, H2.
    split; [exact Hs'|]. exists cl. auto.
  - intros (Hs & cl & Hcl & H1 & H2 & H3). exists s. split; [exact Hs|].
    apply in_map_iff. exists cl. split; [rewrite H3; reflexivity|].
    apply filter_In. split; [exact Hcl|]. rewrite H1, H2, !Nat.eqb_refl. reflexivity.
Qed.

(** ** Primary keys *)

(** The ids of a table are distinct and none exceeds the table's
    AUTOINCREMENT counter, as SQLite keeps them. *)
Definition keysOk {A} (key : A -> nat) (l : list A) (seq : nat) : Prop :=
  NoDup (map key l) /\ Forall (fun x => (key x <= seq)%nat) l.

Definition wfKeys (d : DB) : Prop :=
  keysOk c_id (clients d) (seqClients d) /\ keysOk p_id (prospects d) (seqProspects d) /\
  keysOk s_id (sales d) (seqSales d) /\ keysOk f_id (followUps d) (seqFollowUps d) /\
  keysOk pn_id (phoneNumbers d) (seqPhoneNumbers d) /\ keysOk cl_id (callLogs d) (seqCallLogs d).

(** An operation keeps the keys well formed, whatever faults occur. *)
Definition preserves {A} (m : M A) : Prop :=
  forall env c, wfKeys (store c) -> wfKeys (store (snd (m env c))).

Lemma keysOk_snoc {A} (key : A -> nat) (l : list A) (seq : nat) (x : A) :
  keysOk key l seq -> key x = S seq -> keysOk key (l ++ [x]) (S seq).
Proof.
  intros [Hnd Hle] Hx. split.
  - rewrite map_app. apply NoDup_snoc; [exact Hnd|].
    intros Hin. apply in_map_iff in Hin as (y & Hy & Hin).
    rewrite Forall_forall in Hle. specialize (Hle y Hin). lia.
  - apply Forall_app. split; [|constructor; [lia|constructor]].
    eapply Forall_impl; [|exact Hle]. intros y Hy. cbv beta in *. lia.
Qed.

Lemma keysOk_map {A} (key : A -> nat) (g : A -> A) (l : list A) (seq : nat) :
  (forall x, key (g x) = key x) -> keysOk key l seq -> keysOk key (map g l) seq.
Proof.
  intros Hg [Hnd Hle]. split.
  - rewrite map_map, (map_ext _ key); [exact Hnd|exact Hg].
  - apply Forall_map. eapply Forall_impl; [|exact Hle]. intros y Hy. cbv beta. rewrite Hg. exact Hy.
Qed.

Lemma NoDup_map_filter {A} (key : A -> nat) (p : A -> bool) (l : list A) :
  NoDup (map key l) -> NoDup (map key (filter p l)).
Proof.
  induction l as [|a l IH]; cbn; intros H; [constructor|].
  inversion H as [|? ? Ha Hl]; subst. destruct (p a); cbn; [|apply IH, Hl].
  constructor; [|apply IH, Hl]. intros Hin. apply Ha.
  apply in_map_iff in Hin as (y & Hy & Hin). apply filter_In in Hin as [Hin _].
  rewrite <- Hy. apply in_map, Hin.
Qed.

Lemma keysOk_filter {A} (key : A -> nat) (p : A -> bool) (l : list A) (seq : nat) :
  keysOk key l seq -> keysOk key (filter p l) seq.
Proof.
  intros [Hnd Hle]. split; [apply NoDup_map_filter, Hnd|].
  rewrite Forall_forall in *. intros x Hx. apply filter_In in Hx as [Hx _]. auto.
Qed.

Lemma fold_setClientField_id (fields : list (ClientField * string)) (x : Client) :
  c_id (fold_left setClientField fields x) = c_id x.
Proof.
  revert x. induction fields as [|[[] v] fields IH]; intros x; cbn; rewrite ?IH; reflexivity.
Qed.

Lemma fold_setProspectField_id (fields : list (ProspectField * string)) (x : Prospect) :
  p_id (fold_left setProspectField fields x) = p_id x.
Proof.
  revert x. induction fields as [|[[] v] fields IH]; intros [] ; cbn; rewrite ?IH; reflexivity.
Qed.

Lemma fold_setSaleField_id (fields : list SaleField) (x : Sale) :
  s_id (fold_left setSaleField fields x) = s_id x.
Proof.
  revert x. induction fields as [|[] fields IH]; intros []; cbn; rewrite ?IH; reflexivity.
Qed.

Lemma fold_setCallLogField_id (fields : list CallLogField) (x : CallLog) :
  cl_id (fold_left setCallLogField fields x) = cl_id x.
Proof.
  revert x. induction fields as [|[] fields IH]; intros []; cbn; rewrite ?IH; reflexivity.
Qed.

Lemma preserves_ret {A} (a : A) : preserves (ret a).
Proof. intros env c H. exact H. Qed.

Lemma preserves_throw {A} (e : DbError) : preserves (@throw A e).
Proof. intros env c H. exact H. Qed.

Lemma preserves_clock : preserves clock.
Proof. intros env c H. exact H. Qed.

Lemma preserves_bind {A B} (m : M A) (k : A -> M B) :
  preserves m -> (forall a, preserves (k a)) -> preserves (bind m k).
Proof.
  intros Hm Hk env c H. unfold bind. specialize (Hm env c H).
  destruct (m env c) as [[a|e] c']; cbn in *; [apply Hk|]; exact Hm.
Qed.

Lemma preserves_stmt {A} (f : DB -> Result A * DB) :
  (forall d, wfKeys d -> wfKeys (snd (f d))) -> preserves (stmt f).
Proof.
  intros Hf env c H. unfold stmt. destruct (faults env (stmtNo c)); cbn; [exact H|].
  specialize (Hf _ H). destruct (f (store c)); exact Hf.
Qed.

Lemma preserves_query {A} (f : DB -> A) : preserves (query f).
Proof. apply preserves_stmt. intros d H. exact H. Qed.

Ltac key_preserved :=
  intros ?x; cbv beta;
  repeat match goal with |- context [if ?b then _ else _] => destruct b end;
  rewrite ?fold_setClientField_id, ?fold_setProspectField_id, ?fold_setSaleField_id,
    ?fold_setCallLogField_id; reflexivity.

Ltac stmt_keys :=
  let d := fresh "d" in
  intros d Hwf; destruct d as [cs ps ss fs ns ls q1 q2 q3 q4 q5 q6];
  destruct Hwf as (H1 & H2 & H3 & H4 & H5 & H6);
  unfold sql_insertPhoneNumber; cbn -[keysOk fold_left] in *;
  repeat match goal with |- context [if ?b then _ else _] => destruct b end;
  cbn -[keysOk fold_left] in *;
  refine (conj _ (conj _ (conj _ (conj _ (conj _ _)))));
  first [ assumption
        | apply keysOk_filter; assumption
        | apply keysOk_snoc; [assumption|reflexivity]
        | apply keysOk_map; [key_preserved|assumption] ].

Ltac preserve :=
  repeat first
    [ apply preserves_bind; intros
    | apply preserves_ret | apply preserves_throw | apply preserves_clock
    | apply preserves_query
    | apply preserves_stmt; stmt_keys
    | progress cbv zeta
    | match goal with |- preserves (match ?x with _ => _ end) => destruct x end
    | match goal with |- preserves (if ?b then _ else _) => destruct b end ].

(** X17: every operation that writes keeps the primary keys of all six
    tables distinct and within their AUTOINCREMENT counters, whatever
    statement fails: a failed statement writes nothing, inserts take the next
    counter value, updates never change an id, and deletes only remove rows. *)
Theorem write_operations_keep_keys :
  (forall u ci, preserves (addClient u ci)) /\
  (forall i u, preserves (updateClient i u)) /\
  (forall i, preserves (deleteClient i)) /\
  (forall u pi, preserves (addProspect u pi)) /\
  (forall i st, preserves (updateProspectStatus i st)) /\
  (forall i u, preserves (updateProspect i u)) /\
  (forall i, preserves (deleteProspect i)) /\
  (forall i sd, preserves (addSale i sd)) /\
  (forall i u, preserves (updateSale i u)) /\
  (forall i, preserves (deleteSale i)) /\
  (forall i sd, preserves (convertProspectToClientAndRecordSale i sd)) /\
  (forall fi, preserves (addFollowUp fi)) /\
  (forall i, preserves (completeFollowUp i)) /\
  (forall i dt nt, preserves (updateFollowUp i dt nt)) /\
  (forall i, preserves (deleteFollowUp i)) /\
  (forall u n ld, preserves (recordNewCall u n ld)) /\
  (forall i u, preserves (updateCallLog i u)) /\
  (forall i, preserves (deleteCallLog i)) /\
  (forall i pd, preserves (convertPhoneNumberToProspect i pd)).
Proof.
  repeat match goal with |- _ /\ _ => split end;
  repeat match goal with |- preserves _ => fail 1 | |- _ => intro end;
    unfold addClient, updateClient, deleteClient, addProspect, updateProspectStatus,
      updateProspect, deleteProspect, addSale, updateSale, deleteSale,
      convertProspectToClientAndRecordSale, addFollowUp, completeFollowUp, updateFollowUp,
      deleteFollowUp, recordNewCall, updateCallLog, deleteCallLog,
      convertPhoneNumberToProspect;
    preserve.
Qed.

(** ** Call-log and follow-up updates *)

Definition overrideCallLog (u : CallLogUpdates) (x : CallLog) : CallLog :=
  mkCallLog (cl_id x) (cl_phoneNumberId x) (orElse (lu_date u) (cl_date x))
    (orElse (lu_feedback u) (cl_feedback x)) (orElse (lu_duration u) (cl_duration x))
    (orElse (lu_shortNotes u) (cl_shortNotes x))
    (orElse (lu_nextFollowUpDate u) (cl_nextFollowUpDate x)).

Lemma fold_setCallLogField (u : CallLogUpdates) (x : CallLog) :
  fold_left setCallLogField (callLogUpdateFields u) x = overrideCallLog u x.
Proof. destruct x, u as [[?|] [?|] [?|] [?|] [?|]]; reflexivity. Qed.

(** X18: a fault-free [updateCallLog] overwrites, on the call log with the
    given id only, exactly the supplied fields; a supplied [null]
    [nextFollowUpDate] clears the stored date while an absent one keeps it, and
    the id and phone number of the log never change. *)
Theorem updateCallLog_fields (t : string) (dm : string -> option string) (c : Conn)
  (i : nat) (u : CallLogUpdates) :
  let r := updateCallLog i u (noFaults t dm) c in
  fst r = Ok tt /\
  store (snd r) =
    set_callLogs (store c) (map (fun x => if Nat.eqb (cl_id x) i then overrideCallLog u x else x)
                              (callLogs (store c))) (seqCallLogs (store c)) /\
  (lu_nextFollowUpDate u = Some None ->
   forall x, In x (callLogs (store (snd r))) -> cl_id x = i -> cl_nextFollowUpDate x = None).
Proof.
  assert (Hst : store (snd (updateCallLog i u (noFaults t dm) c)) =
    set_callLogs (store c) (map (fun x => if Nat.eqb (cl_id x) i then overrideCallLog u x else x)
                              (callLogs (store c))) (seqCallLogs (store c))).
  { unfold updateCallLog. destruct (callLogUpdateFields u) eqn:E.
    - cbn. rewrite map_if_id; [destruct (store c); reflexivity|].
      intros x. rewrite <- fold_setCallLogField, E. destruct x; reflexivity.
    - cbv [stmt noFaults faults store stmtNo fst snd]. rewrite <- E.
      f_equal. apply map_ext. intros x. rewrite fold_setCallLogField. reflexivity. }
  cbv zeta. split; [unfold updateCallLog; destruct (callLogUpdateFields u); reflexivity|].
  split; [exact Hst|].
  intros Hnull x Hx Hid. rewrite Hst in Hx. cbn in Hx.
  apply in_map_iff in Hx as (y & <- & Hy).
  destruct (Nat.eqb (cl_id y) i) eqn:E.
  - cbn. rewrite Hnull. reflexivity.
  - cbn in Hid. apply Nat.eqb_neq in E. contradiction.
Qed.

Lemma updateCallLog_fields_witness :
  let u := mkCallLogUpdates None None None None (Some None) in
  lu_nextFollowUpDate u = Some None /\
  fst (updateCallLog 1 u noFaults0 (mkConn clientWithFollowUpDB 0)) = Ok tt.
Proof.
  cbv zeta. split; [reflexivity|].
  exact (proj1 (updateCallLog_fields "2024-06-03T09:00:00.000Z" (fun _ => None)
                  (mkConn clientWithFollowUpDB 0) 1
                  (mkCallLogUpdates None None None None (Some None)))).
Defined.

(** X19: a fault-free [updateFollowUp] given a non-empty [date] sets the date
    of the follow-up with that id, replaces its notes only when [notes] is a
    non-empty string, and changes nothing else. *)
Theorem updateFollowUp_sets_date (t : string) (dm : string -> option string) (c : Conn)
  (i : nat) (date : string) (notes : option string) (Hd : date <> "") :
  let r := updateFollowUp i (Some date) notes (noFaults t dm) c in
  fst r = Ok tt /\
  store (snd r) =
    set_followUps (store c) (map (fun f =>
      if Nat.eqb (f_id f) i
      then mkFollowUp (f_id f) (f_entityId f) (f_entityType f) date
             (match notes with
              | Some n => if String.eqb n "" then f_notes f else n
              | None => f_notes f
              end) (f_isCompleted f) (f_createdAt f)
      else f) (followUps (store c))) (seqFollowUps (store c)).
Proof.
  assert (Ht : truthy (Some date) = true).
  { cbn. apply String.eqb_neq in Hd. rewrite Hd. reflexivity. }
  unfold updateFollowUp. rewrite Ht. cbn [app].
  cbv [stmt noFaults faults store stmtNo fst snd]. split; [reflexivity|].
  f_equal. apply map_ext. intros f. destruct (Nat.eqb (f_id f) i); [|reflexivity].
  f_equal. destruct notes as [n|]; cbn; [|reflexivity].
  destruct (String.eqb n ""); reflexivity.
Qed.

Lemma updateFollowUp_sets_date_witness :
  "2024-07-01" <> "" /\
  fst (updateFollowUp 1 (Some "2024-07-01") None noFaults0 (mkConn clientWithFollowUpDB 0))
    = Ok tt.
Proof.
  assert (H : "2024-07-01" <> "") by discriminate.
  split; [exact H|].
  exact (proj1 (updateFollowUp_sets_date "2024-06-03T09:00:00.000Z" (fun _ => None)
                  (mkConn clientWithFollowUpDB 0) 1 "2024-07-01" None H)).
Defined.

(** ** Rows of the joined list queries *)

(** X20: the rows of [getCallLogs] are exactly the pairs of a call log and the
    number of its phone number, for the logs whose phone number belongs to the
    user. *)
Theorem getCallLogs_rows (d : DB) (userId : nat) (l : CallLog) (number : string) :
  In (l, number) (selectCallLogs userId d) <->
  In l (callLogs d) /\
  exists pn, In pn (phoneNumbers d) /\ pn_id pn = cl_phoneNumberId l /\
             pn_userId pn = userId /\ pn_number pn = number.
Proof.
  unfold selectCallLogs. rewrite in_sortBy, in_flat_map. split.
  - intros (l' & Hl' & Hin). apply in_map_iff in Hin as (pn & Heq & Hpn).
    injection Heq as Hl Hn. subst l'. apply filter_In in Hpn as [Hpn Hb].
    apply andb_prop in Hb as [H1 H2]. apply Nat.eqb_eq in H1, H2.
    split; [exact Hl'|]. exists pn. auto.
  - intros (Hl & pn & Hpn & H1 & H2 & H3). exists l. split; [exact Hl|].
    apply in_map_iff. exists pn. split; [rewrite H3; reflexivity|].
    apply filter_In. split; [exact Hpn|]. rewrite H1, H2, !Nat.eqb_refl. reflexivity.
Qed.

Lemma in_leftJoin {A} (l : list A) (x : option A) :
  In x (leftJoin l) <-> (l = [] /\ x = None) \/ exists a, In a l /\ x = Some a.
Proof.
  destruct l as [|a l]; cbn.
  - split; [intros [<-|[]]; auto|]. intros [[_ ->]|(b & [] & _)]; auto.
  - split.
    + intros [<-|Hin]; right; [exists a; auto|].
      apply in_map_iff in Hin as (b & <- & Hb). exists b. auto.
    + intros [[H _]|(b & Hb & ->)]; [discriminate|].
      destruct Hb as [<-|Hb]; [left; reflexivity|right; apply in_map; exact Hb].
Qed.

Lemma leftJoin_inhabited {A} (l : list A) : exists x, In x (leftJoin l).
Proof. destruct l as [|a l]; cbn; eauto. Qed.

Lemma ownedBy_true {A} (owner : A -> nat) (userId : nat) (o : option A) :
  ownedBy owner userId o = true <-> exists a, o = Some a /\ owner a = userId.
Proof.
  destruct o as [a|]; cbn.
  - rewrite Nat.eqb_eq. split; [eauto|]. intros (b & Hb & H). injection Hb as ->. exact H.
  - split; [discriminate|]. intros (b & Hb & _). discriminate.
Qed.

(** X21: [getFollowUps] lists exactly the follow-ups attached to a client, a
    prospect or a phone number of the user (by their [entityType] and
    [entityId]); a follow-up of another user's entity, or of no entity, is
    never listed. *)
Theorem getFollowUps_rows (d : DB) (userId : nat) (f : FollowUp) :
  In f (selectFollowUps userId d) <->
  In f (followUps d) /\
  ((f_entityType f = "client" /\
    exists x, In x (clients d) /\ c_id x = f_entityId f /\ c_userId x = userId) \/
   (f_entityType f = "prospect" /\
    exists x, In x (prospects d) /\ p_id x = f_entityId f /\ p_userId x = userId) \/
   (f_entityType f = "phoneNumber" /\
    exists x, In x (phoneNumbers d) /\ pn_id x = f_entityId f /\ pn_userId x = userId)).
Proof.
  unfold selectFollowUps. rewrite in_sortBy, in_flat_map. split.
  - intros (g & Hg & Hin).
    apply in_flat_map in Hin as (oc & Hoc & Hin).
    apply in_flat_map in Hin as (op & Hop & Hin).
    apply in_flat_map in Hin as (on & Hon & Hin).
    destruct (ownedBy c_userId userId oc || ownedBy p_userId userId op
              || ownedBy pn_userId userId on) eqn:Eo; [|destruct Hin].
    destruct Hin as [<-|[]]. split; [exact Hg|].
    apply orb_true_iff in Eo as [Eo|Eo]; [apply orb_true_iff in Eo as [Eo|Eo]|].
    + left. apply ownedBy_true in Eo as (x & -> & Hu).
      apply in_leftJoin in Hoc as [[_ H]|(y & Hy & Hxy)]; [discriminate|].
      injection Hxy as <-. apply filter_In in Hy as [Hy Hb].
      apply andb_prop in Hb as [H1 H2]. apply Nat.eqb_eq in H1. apply String.eqb_eq in H2.
      split; [exact H2|]. exists x. auto.
    + right; left. apply ownedBy_true in Eo as (x & -> & Hu).
      apply in_leftJoin in Hop as [[_ H]|(y & Hy & Hxy)]; [discriminate|].
      injection Hxy as <-. apply filter_In in Hy as [Hy Hb].
      apply andb_prop in Hb as [H1 H2]. apply Nat.eqb_eq in H1. apply String.eqb_eq in H2.
      split; [exact H2|]. exists x. auto.
    + right; right. apply ownedBy_true in Eo as (x & -> & Hu).
      apply in_leftJoin in Hon as [[_ H]|(y & Hy & Hxy)]; [discriminate|].
      injection Hxy as <-. apply filter_In in Hy as [Hy Hb].
      apply andb_prop in Hb as [H1 H2]. apply Nat.eqb_eq in H1. apply String.eqb_eq in H2.
      split; [exact H2|]. exists x. auto.
  - intros [Hf Hown]. exists f. split; [exact Hf|].
    set (cs := filter (fun c => Nat.eqb c.(c_id) f.(f_entityId)
                                && String.eqb f.(f_entityType) "client") d.(clients)).
    set (ps := filter (fun p => Nat.eqb p.(p_id) f.(f_entityId)
                                && String.eqb f.(f_entityType) "prospect") d.(prospects)).
    set (ns := filter (fun p => Nat.eqb p.(pn_id) f.(f_entityId)
                                && String.eqb f.(f_entityType) "phoneNumber") d.(phoneNumbers)).
    destruct (leftJoin_inhabited cs) as [oc0 Hoc0].
    destruct (leftJoin_inhabited ps) as [op0 Hop0].
    destruct (leftJoin_inhabited ns) as [on0 Hon0].
    assert (Hsome : forall {A} (l : list A) a, In a l -> In (Some a) (leftJoin l)).
    { intros A l a Ha. apply in_leftJoin. right. eauto. }
    destruct Hown as [(Ht & x & Hx & H1 & H2)|[(Ht & x & Hx & H1 & H2)|(Ht & x & Hx & H1 & H2)]].
    + apply in_flat_map. exists (Some x). split.
      { apply Hsome, filter_In. split; [exact Hx|]. rewrite H1, Ht, Nat.eqb_refl. reflexivity. }
      apply in_flat_map. exists op0. split; [exact Hop0|].
      apply in_flat_map. exists on0. split; [exact Hon0|].
      cbn [ownedBy]. rewrite H2, Nat.eqb_refl. left. reflexivity.
    + apply in_flat_map. exists oc0. split; [exact Hoc0|].
      apply in_flat_map. exists (Some x). split.
      { apply Hsome, filter_In. split; [exact Hx|]. rewrite H1, Ht, Nat.eqb_refl. reflexivity. }
      apply in_flat_map. exists on0. split; [exact Hon0|].
      cbn [ownedBy]. rewrite H2, Nat.eqb_refl, orb_true_r. left. reflexivity.
    + apply in_flat_map. exists oc0. split; [exact Hoc0|].
      apply in_flat_map. exists op0. split; [exact Hop0|].
      apply in_flat_map. exists (Some x). split.
      { apply Hsome, filter_In. split; [exact Hx|]. rewrite H1, Ht, Nat.eqb_refl. reflexivity. }
      cbn [ownedBy]. rewrite H2, Nat.eqb_refl, orb_true_r. left. reflexivity.
Qed.

(** ** When [getAnalyticsData] fails *)

Lemma monthMap_result (dm : string -> option string) (ss : list Sale)
  (m : list (string * (Q * nat))) :
  let r := fold_left (fun acc s =>
    match acc with
    | Err e => Err e
    | Ok m =>
        match dm s.(s_date) with
        | None => Err InvalidDate
        | Some month =>
            let existing := mapGetOr m month (0, 0%nat) in
            Ok (mapSet m month (fst existing + s.(s_amount), S (snd existing)))
        end
    end) ss (Ok m) in
  (forall e, r = Err e -> e = InvalidDate /\ exists s, In s ss /\ dm (s_date s) = None) /\
  (Forall (fun s => dm (s_date s) <> None) ss -> exists mm, r = Ok mm).
Proof.
  revert m. induction ss as [|s ss IH]; intros m; cbn [fold_left].
  - split; [discriminate|eauto].
  - destruct (dm (s_date s)) as [month|] eqn:E.
    + destruct (IH (let existing := mapGetOr m month (0, 0%nat) in
                    mapSet m month (fst existing + s_amount s, S (snd existing))))
        as [IH1 IH2].
      split.
      * intros e He. destruct (IH1 e He) as [-> (s' & Hs' & Hd)]. split; [reflexivity|].
        exists s'. split; [right; exact Hs'|exact Hd].
      * intros Hall. inversion Hall; subst. apply IH2. assumption.
    + rewrite monthMap_err. split.
      * intros e He. injection He as <-. split; [reflexivity|]. exists s. split; [left|]; auto.
      * intros Hall. inversion Hall; subst. contradiction.
Qed.

(** X22: the in-memory part of [getAnalyticsData] fails only with
    [InvalidDate], and only when some sale's date cannot be read as a month;
    when every sale's date can, it succeeds. *)
Theorem computeAnalytics_result (dm : string -> option string) (ss : list Sale)
  (cs : list Client) (ps : list Prospect) (logs : list (CallLog * string))
  (fus : list FollowUp) :
  (forall e, computeAnalytics dm ss cs ps logs fus = Err e ->
     e = InvalidDate /\ exists s, In s ss /\ dm (s_date s) = None) /\
  (Forall (fun s => dm (s_date s) <> None) ss ->
   exists a, computeAnalytics dm ss cs ps logs fus = Ok a).
Proof.
  destruct (monthMap_result dm ss []) as [H1 H2]. unfold computeAnalytics.
  destruct (monthMap dm ss) as [mm|e'] eqn:E; unfold monthMap in E; cbv zeta in H1, H2, E;
    split.
  - discriminate.
  - intros _. eexists. reflexivity.
  - intros e He. injection He as <-. apply H1. exact E.
  - intros Hall. destruct (H2 Hall) as [mm Hmm]. congruence.
Qed.

(** ** Writes the code does not guard *)

(** X23: [addSale] does not check that its client exists: run without faults
    with a [clientId] that no client has, it stores the sale, and that sale is
    then listed by [getSales] for no user. *)
Theorem addSale_orphan (t : string) (dm : string -> option string) (c : Conn)
  (clientId : nat) (sd : SaleData)
  (Hc : ~ In clientId (map c_id (clients (store c)))) :
  let r := addSale clientId sd (noFaults t dm) c in
  exists s, fst r = Ok s /\ sales (store (snd r)) = sales (store c) ++ [s] /\
    s_clientId s = clientId /\
    forall userId name, ~ In (s, name) (selectSales userId (store (snd r))).
Proof.
  cbn. eexists. split; [reflexivity|]. split; [reflexivity|]. split; [reflexivity|].
  intros userId name Hin. unfold selectSales in Hin. rewrite in_sortBy, in_flat_map in Hin.
  destruct Hin as (s' & _ & Hin). apply in_map_iff in Hin as (cl & Heq & Hcl).
  injection Heq as Hs _. subst s'. apply filter_In in Hcl as [Hcl Hb]. cbn in Hcl, Hb.
  apply andb_prop in Hb as [Hb _]. apply Nat.eqb_eq in Hb.
  apply Hc. rewrite <- Hb. apply in_map, Hcl.
Qed.

Lemma addSale_orphan_witness :
  ~ In 7%nat (map c_id (clients clientWithFollowUpDB)) /\
  exists s, fst (addSale 7 saleData0 noFaults0 (mkConn clientWithFollowUpDB 0)) = Ok s /\
            s_clientId s = 7%nat.
Proof.
  assert (H : ~ In 7%nat (map c_id (clients (store (mkConn clientWithFollowUpDB 0)))))
    by (cbn; intros [H|H]; [discriminate|contradiction]).
  split; [exact H|].
  destruct (addSale_orphan "2024-06-03T09:00:00.000Z" (fun _ => None)
              (mkConn clientWithFollowUpDB 0) 7 saleData0 H) as (s & Hs & _ & Hc & _).
  exists s. split; [exact Hs|exact Hc].
Defined.

(** X24: [recordNewCall] runs its statements without a transaction: when the
    phone-number statement succeeds and the call-log insert fails, the call
    raises, no call log or follow-up is written, and the phone number row for
    this user and number is nevertheless dated with this call. *)
Theorem recordNewCall_partial_on_fault (env : Env) (c : Conn) (userId : nat)
  (number : string) (logData : LogData)
  (H0 : faults env (stmtNo c) = false) (H1 : faults env (S (stmtNo c)) = false)
  (H2 : faults env (S (S (stmtNo c))) = true) :
  let r := recordNewCall userId number logData env c in
  let d := store c in
  let d' := store (snd r) in
  fst r = Err StorageFault /\ callLogs d' = callLogs d /\ followUps d' = followUps d /\
  exists pn, In pn (phoneNumbers d') /\ pn_userId pn = userId /\ pn_number pn = number /\
             pn_lastCalledDate pn = ld_date logData.
Proof.
  cbv [recordNewCall bind query stmt ret]. rewrite H0. simpl.
  destruct (find (samePair userId number) (phoneNumbers (store c))) as [pn|] eqn:E;
    simpl; rewrite H1; simpl; [|unfold sql_insertPhoneNumber;
    rewrite (find_none_existsb _ _ E)]; simpl; rewrite H2; simpl.
  - apply find_some in E as [Hin Hpair]. unfold samePair in Hpair.
    apply andb_prop in Hpair as [Hu Hn]. apply Nat.eqb_eq in Hu. apply String.eqb_eq in Hn.
    repeat split. eexists. split.
    + apply in_map_iff. exists pn. rewrite Nat.eqb_refl. split; [reflexivity|exact Hin].
    + cbn. auto.
  - repeat split. eexists. split; [apply in_or_app; right; left; reflexivity|].
    cbn. auto.
Qed.

Lemma recordNewCall_partial_on_fault_witness :
  let env := mkEnv (fun n => Nat.eqb n 2) "" (fun _ => None) in
  faults env 0 = false /\ faults env 1 = false /\ faults env 2 = true /\
  fst (recordNewCall 1 "555-0199" (callOn "2024-06-03") env (mkConn emptyDB 0))
    = Err StorageFault.
Proof.
  cbv zeta. split; [reflexivity|]. split; [reflexivity|]. split; [reflexivity|].
  exact (proj1 (recordNewCall_partial_on_fault (mkEnv (fun n => Nat.eqb n 2) "" (fun _ => None))
                  (mkConn emptyDB 0) 1 "555-0199" (callOn "2024-06-03")
                  eq_refl eq_refl eq_refl)).
Defined.

(** X25: when SQLite's [DATE()] cannot read the day given to
    [getDailyCallStats], the comparison is NULL for every call, and all the
    statistics are zero. *)
Theorem getDailyCallStats_unreadable_date (sqlDate : string -> option string) (userId : nat)
  (date : string) (t : string) (dm : string -> option string) (c : Conn)
  (H : sqlDate (beforeT date) = None) :
  fst (getDailyCallStats sqlDate userId date (noFaults t dm) c) =
  Ok (mkDailyCallStats 0 0 0 0 0 0).
Proof.
  cbv [getDailyCallStats bind query stmt noFaults faults ret fst]. rewrite H.
  match goal with |- context [flat_map ?F ?ls] => assert (Hnil : flat_map F ls = []) end.
  { generalize (phoneNumbers (store c)) as ns. induction (callLogs (store c)) as [|l ls IH];
      intros ns; cbn; [reflexivity|].
    rewrite IH, app_nil_r. induction ns as [|p ns IHns]; cbn; [reflexivity|].
    destruct (sqlDate (cl_date l)); rewrite andb_false_r; exact IHns. }
  rewrite Hnil. reflexivity.
Qed.

Lemma getDailyCallStats_unreadable_date_witness :
  (fun _ : string => @None string) (beforeT "not a date") = None /\
  fst (getDailyCallStats (fun _ => None) 1 "not a date" noFaults0 (mkConn onePhoneDB 0))
    = Ok (mkDailyCallStats 0 0 0 0 0 0).
Proof.
  split; [reflexivity|].
  exact (getDailyCallStats_unreadable_date (fun _ => None) 1 "not a date"
           "2024-06-03T09:00:00.000Z" (fun _ => None) (mkConn onePhoneDB 0) eq_refl).
Defined.

Lemma addClient_then_lookup_witness :
  Forall (fun x => (c_id x <= seqClients clientWithFollowUpDB)%nat) (clients clientWithFollowUpDB) /\
  exists cl, fst (addClient 1 (mkClientInput "Bea" "555-0102" "bea@b.example" "B Co" "Retail")
                    noFaults0 (mkConn clientWithFollowUpDB 0)) = Ok cl /\
             fst (getClientById (c_id cl) noFaults0
                    (snd (addClient 1 (mkClientInput "Bea" "555-0102" "bea@b.example" "B Co" "Retail")
                            noFaults0 (mkConn clientWithFollowUpDB 0)))) = Ok (Some cl).
Proof.
  assert (H : Forall (fun x => (c_id x <= seqClients (store (mkConn clientWithFollowUpDB 0)))%nat)
                (clients (store (mkConn clientWithFollowUpDB 0))))
    by (repeat constructor).
  split; [exact H|].
  destruct (addClient_then_lookup "2024-06-03T09:00:00.000Z" (fun _ => None)
              (mkConn clientWithFollowUpDB 0) 1
              (mkClientInput "Bea" "555-0102" "bea@b.example" "B Co" "Retail") H)
    as (cl & Hcl & _ & Hget & _).
  exists cl. split; [exact Hcl|exact Hget].
Defined.

(** * Follow-ups with the details of their entity *)

(** A row of [getFollowUpsWithDetails]: the [FollowUps.*] columns and the
    three [CASE] columns [entityName], [entityPhone] and [entityCompany]
    ([None] is SQL NULL). *)
Record FollowUpWithDetails := mkFollowUpWithDetails {
  fd_followUp : FollowUp; fd_entityName : option string;
  fd_entityPhone : option string; fd_entityCompany : option string }.

(** [CASE WHEN FollowUps.entityType = 'client' THEN .. WHEN .. = 'prospect'
    THEN .. WHEN .. = 'phoneNumber' THEN .. END] (NULL when no branch is
    taken). *)
Definition entityCase (f : FollowUp) (client prospect phoneNumber : option string) : option string :=
  if String.eqb f.(f_entityType) "client" then client
  else if String.eqb f.(f_entityType) "prospect" then prospect
  else if String.eqb f.(f_entityType) "phoneNumber" then phoneNumber
  else None.

(** The selected columns of one joined row; a column of a NULL side of a
    [LEFT JOIN] is NULL.  [entityCompany] has no [phoneNumber] branch. *)
Definition detailsRow (f : FollowUp) (c : option Client) (p : option Prospect)
  (n : option PhoneNumber) : FollowUpWithDetails :=
  mkFollowUpWithDetails f
    (entityCase f (option_map c_name c) (option_map p_name p) (option_map pn_number n))
    (entityCase f (option_map c_phone c) (option_map p_phone p) (option_map pn_number n))
    (entityCase f (option_map c_company c) (option_map p_company p) None).

(** [ORDER BY FollowUps.isCompleted ASC, FollowUps.date ASC] *)
Definition byCompletedThenDate (a b : FollowUpWithDetails) : bool :=
  let x := a.(fd_followUp) in
  let y := b.(fd_followUp) in
  Nat.ltb x.(f_isCompleted) y.(f_isCompleted)
  || Nat.eqb x.(f_isCompleted) y.(f_isCompleted) && String.leb x.(f_date) y.(f_date).

(** The query of [getFollowUpsWithDetails]: the joins and the [WHERE] of
    [getFollowUps], with the [CASE] columns and the order above. *)
Definition selectFollowUpsWithDetails (userId : nat) (d : DB) : list FollowUpWithDetails :=
  sortBy byCompletedThenDate (flat_map (fun f =>
    let cs := leftJoin (filter (fun c => Nat.eqb c.(c_id) f.(f_entityId)
                                         && String.eqb f.(f_entityType) "client") d.(clients)) in
    let ps := leftJoin (filter (fun p => Nat.eqb p.(p_id) f.(f_entityId)
                                         && String.eqb f.(f_entityType) "prospect") d.(prospects)) in
    let ns := leftJoin (filter (fun p => Nat.eqb p.(pn_id) f.(f_entityId)
                                         && String.eqb f.(f_entityType) "phoneNumber") d.(phoneNumbers)) in
    flat_map (fun c => flat_map (fun p => flat_map (fun n =>
      if ownedBy c_userId userId c || ownedBy p_userId userId p || ownedBy pn_userId userId n
      then [detailsRow f c p n] else []) ns) ps) cs) d.(followUps)).

(** [getFollowUpsWithDetails]: the query, then
    [followUps.filter((f) => f.entityName)]. *)
Definition getFollowUpsWithDetails (userId : nat) : M (list FollowUpWithDetails) :=
  followUps <- query (selectFollowUpsWithDetails userId) ;;
  ret (filter (fun f => truthy f.(fd_entityName)) followUps).

(** * Accounts *)

Record User := mkUser {
  usr_id : nat; usr_username : string; usr_passwordHash : string; usr_name : string }.

(** The Users table ([username TEXT UNIQUE NOT NULL]) and its AUTOINCREMENT
    sequence.  No operation above reads or writes it, and [signup] and
    [signin] touch no other table, so it is a store of its own, reached
    through the same kind of connection: one statement, which may fail. *)
Record UsersTable := mkUsersTable { users : list User; seqUsers : nat }.

Record UConn := mkUConn { ustore : UsersTable; ustmtNo : nat }.

Definition ustmt {A} (f : UsersTable -> Result A * UsersTable) (env : Env) (c : UConn)
  : Result A * UConn :=
  if faults env (ustmtNo c) then (Err StorageFault, mkUConn (ustore c) (S (ustmtNo c)))
  else let (r, t) := f (ustore c) in (r, mkUConn t (S (ustmtNo c))).

(** [new Error("Username already exists")], [new Error("Invalid credentials")],
    and an error of the statement, rethrown. *)
Inductive AuthError :=
| UsernameExists
| InvalidCredentials
| AuthFailure (e : DbError).

Inductive AuthResult (A : Type) :=
| AOk (a : A)
| AErr (e : AuthError).
Arguments AOk {A} a.
Arguments AErr {A} e.

(** [INSERT INTO Users (username, passwordHash, name) VALUES (?, ?, ?)]:
    refused by the UNIQUE constraint on [username]; the result is
    [lastInsertRowId]. *)
Definition sql_insertUser (username passwordHash name : string) (t : UsersTable)
  : Result nat * UsersTable :=
  if existsb (fun u => String.eqb u.(usr_username) username) t.(users)
  then (Err ConstraintViolation, t)
  else let id := nextId t.(seqUsers) in
       (Ok id, mkUsersTable (t.(users) ++ [mkUser id username passwordHash name]) id).

(** [SELECT * FROM Users WHERE username = ? AND passwordHash = ?] with
    [getFirstAsync]. *)
Definition sql_selectUser (username passwordHash : string) (t : UsersTable) : option User :=
  find (fun u => String.eqb u.(usr_username) username
                 && String.eqb u.(usr_passwordHash) passwordHash) t.(users).

Section Accounts.

(** [hashPassword]: [CryptoJS.SHA256(password).toString()], the hex digest,
    left abstract. *)
Variable hashPassword : string -> string.

(** [signup]: every error of the [try] block becomes
    [new Error("Username already exists")]. *)
Definition signup (username password name : string) (env : Env) (c : UConn)
  : AuthResult User * UConn :=
  let passwordHash := hashPassword password in
  match ustmt (sql_insertUser username passwordHash name) env c with
  | (Ok id, c') => (AOk (mkUser id username passwordHash name), c')
  | (Err _, c') => (AErr UsernameExists, c')
  end.

(** [signin]: no row throws [new Error("Invalid credentials")]; the [catch]
    rethrows every error. *)
Definition signin (username password : string) (env : Env) (c : UConn)
  : AuthResult User * UConn :=
  let passwordHash := hashPassword password in
  match ustmt (fun t => (Ok (sql_selectUser username passwordHash t), t)) env c with
  | (Ok (Some u), c') => (AOk u, c')
  | (Ok None, c') => (AErr InvalidCredentials, c')
  | (Err e, c') => (AErr (AuthFailure e), c')
  end.

End Accounts.

(** ** The rows of [getFollowUpsWithDetails] *)

Lemma string_leb_trans (s1 s2 s3 : string) :
  String.leb s1 s2 = true -> String.leb s2 s3 = true -> String.leb s1 s3 = true.
Proof.
  unfold String.leb. revert s2 s3.
  induction s1 as [|a1 r1 IH]; intros [|a2 r2] [|a3 r3]; cbn; try easy.
  unfold Ascii.compare.
  destruct (BinNat.N.compare_spec (N_of_ascii a1) (N_of_ascii a2)) as [E12|E12|E12];
  destruct (BinNat.N.compare_spec (N_of_ascii a2) (N_of_ascii a3)) as [E23|E23|E23];
  destruct (BinNat.N.compare_spec (N_of_ascii a1) (N_of_ascii a3)) as [E13|E13|E13];
  try easy; try lia.
  apply IH.
Qed.

Lemma byCompletedThenDate_total (a b : FollowUpWithDetails) :
  byCompletedThenDate a b = false -> byCompletedThenDate b a = true.
Proof.
  unfold byCompletedThenDate. intros E. apply orb_false_iff in E as [E1 E2].
  apply Nat.ltb_ge in E1. apply orb_true_iff.
  destruct (Nat.eq_dec (f_isCompleted (fd_followUp a)) (f_isCompleted (fd_followUp b))) as [Heq|Hne].
  - right. rewrite Heq, Nat.eqb_refl in *. cbn in E2 |- *.
    destruct (String.leb_total (f_date (fd_followUp a)) (f_date (fd_followUp b))); congruence.
  - left. apply Nat.ltb_lt. lia.
Qed.

Lemma byCompletedThenDate_trans :
  Relations_1.Transitive (fun a b => byCompletedThenDate a b = true).
Proof.
  intros a b c. unfold byCompletedThenDate.
  rewrite !orb_true_iff, !andb_true_iff, !Nat.ltb_lt, !Nat.eqb_eq.
  intros [H1|[H1 H2]] [H3|[H3 H4]]; try (left; lia).
  right. split; [lia|]. eapply string_leb_trans; eassumption.
Qed.

Lemma StronglySorted_filter {A} (R : A -> A -> Prop) (p : A -> bool) (l : list A) :
  StronglySorted R l -> StronglySorted R (filter p l).
Proof.
  induction 1 as [|a l Hs IH Hall]; cbn; [constructor|].
  destruct (p a); [|exact IH].
  constructor; [exact IH|]. apply Forall_forall. intros x Hx.
  apply filter_In in Hx as [Hx _]. eapply Forall_forall in Hall; [exact Hall|exact Hx].
Qed.

Lemma Sorted_mono {A} (R S : A -> A -> Prop) (l : list A) :
  (forall a b, R a b -> S a b) -> Sorted R l -> Sorted S l.
Proof.
  intros HRS. induction 1 as [|a l Hs IH Hhd]; constructor; [exact IH|].
  destruct Hhd; constructor. apply HRS. assumption.
Qed.

Lemma getFollowUpsWithDetails_ok (env : Env) (c : Conn) (userId : nat)
  (l : list FollowUpWithDetails) :
  fst (getFollowUpsWithDetails userId env c) = Ok l ->
  l = filter (fun f => truthy f.(fd_entityName)) (selectFollowUpsWithDetails userId (store c)).
Proof.
  cbv [getFollowUpsWithDetails bind query stmt ret].
  destruct (faults env (stmtNo c)); cbn; [discriminate|]. intros H. injection H as <-. reflexivity.
Qed.

Lemma detailsRow_client (f : FollowUp) (x : Client) (p : option Prospect) (n : option PhoneNumber) :
  f_entityType f = "client" ->
  detailsRow f (Some x) p n
  = mkFollowUpWithDetails f (Some (c_name x)) (Some (c_phone x)) (Some (c_company x)).
Proof. intros Ht. unfold detailsRow, entityCase. rewrite Ht. reflexivity. Qed.

Lemma detailsRow_prospect (f : FollowUp) (c : option Client) (x : Prospect) (n : option PhoneNumber) :
  f_entityType f = "prospect" ->
  detailsRow f c (Some x) n
  = mkFollowUpWithDetails f (Some (p_name x)) (Some (p_phone x)) (Some (p_company x)).
Proof. intros Ht. unfold detailsRow, entityCase. rewrite Ht. reflexivity. Qed.

Lemma detailsRow_phoneNumber (f : FollowUp) (c : option Client) (p : option Prospect) (x : PhoneNumber) :
  f_entityType f = "phoneNumber" ->
  detailsRow f c p (Some x)
  = mkFollowUpWithDetails f (Some (pn_number x)) (Some (pn_number x)) None.
Proof. intros Ht. unfold detailsRow, entityCase. rewrite Ht. reflexivity. Qed.

Lemma truthy_Some (s : string) : truthy (Some s) = true <-> s <> "".
Proof. cbn. rewrite negb_true_iff. apply String.eqb_neq. Qed.

(** X26: a row listed by [getFollowUpsWithDetails] is exactly a follow-up
    attached to a client, a prospect or a phone number of the user whose name
    (for a phone number: whose number) is not empty, together with that
    entity's name, phone and company; a phone number has no company (NULL).
    A follow-up of an entity with an empty name, which [getFollowUps] lists,
    is left out here. *)
Theorem getFollowUpsWithDetails_rows (env : Env) (c : Conn) (userId : nat)
  (l : list FollowUpWithDetails) (H : fst (getFollowUpsWithDetails userId env c) = Ok l)
  (r : FollowUpWithDetails) :
  In r l <->
  In (fd_followUp r) (followUps (store c)) /\
  ((f_entityType (fd_followUp r) = "client" /\
    exists x, In x (clients (store c)) /\ c_id x = f_entityId (fd_followUp r) /\
      c_userId x = userId /\ c_name x <> "" /\
      r = mkFollowUpWithDetails (fd_followUp r) (Some (c_name x)) (Some (c_phone x))
            (Some (c_company x))) \/
   (f_entityType (fd_followUp r) = "prospect" /\
    exists x, In x (prospects (store c)) /\ p_id x = f_entityId (fd_followUp r) /\
      p_userId x = userId /\ p_name x <> "" /\
      r = mkFollowUpWithDetails (fd_followUp r) (Some (p_name x)) (Some (p_phone x))
            (Some (p_company x))) \/
   (f_entityType (fd_followUp r) = "phoneNumber" /\
    exists x, In x (phoneNumbers (store c)) /\ pn_id x = f_entityId (fd_followUp r) /\
      pn_userId x = userId /\ pn_number x <> "" /\
      r = mkFollowUpWithDetails (fd_followUp r) (Some (pn_number x)) (Some (pn_number x)) None)).
Proof.
  apply getFollowUpsWithDetails_ok in H. subst l.
  unfold selectFollowUpsWithDetails. rewrite filter_In, in_sortBy, in_flat_map. split.
  - intros [(f & Hf & Hin) Htr].
    apply in_flat_map in Hin as (oc & Hoc & Hin).
    apply in_flat_map in Hin as (op & Hop & Hin).
    apply in_flat_map in Hin as (on & Hon & Hin).
    destruct (ownedBy c_userId userId oc || ownedBy p_userId userId op
              || ownedBy pn_userId userId on) eqn:Eo; [|destruct Hin].
    destruct Hin as [<-|[]].
    apply orb_true_iff in Eo as [Eo|Eo]; [apply orb_true_iff in Eo as [Eo|Eo]|].
    + apply ownedBy_true in Eo as (x & -> & Hu).
      apply in_leftJoin in Hoc as [[_ H]|(y & Hy & Hxy)]; [discriminate|].
      injection Hxy as <-. apply filter_In in Hy as [Hy Hb].
      apply andb_prop in Hb as [H1 H2]. apply Nat.eqb_eq in H1. apply String.eqb_eq in H2.
      rewrite (detailsRow_client f x op on H2) in Htr |- *.
      cbn [fd_followUp fd_entityName] in *. apply truthy_Some in Htr.
      split; [exact Hf|]. left. split; [exact H2|]. exists x. auto.
    + apply ownedBy_true in Eo as (x & -> & Hu).
      apply in_leftJoin in Hop as [[_ H]|(y & Hy & Hxy)]; [discriminate|].
      injection Hxy as <-. apply filter_In in Hy as [Hy Hb].
      apply andb_prop in Hb as [H1 H2]. apply Nat.eqb_eq in H1. apply String.eqb_eq in H2.
      rewrite (detailsRow_prospect f oc x on H2) in Htr |- *.
      cbn [fd_followUp fd_entityName] in *. apply truthy_Some in Htr.
      split; [exact Hf|]. right; left. split; [exact H2|]. exists x. auto.
    + apply ownedBy_true in Eo as (x & -> & Hu).
      apply in_leftJoin in Hon as [[_ H]|(y & Hy & Hxy)]; [discriminate|].
      injection Hxy as <-. apply filter_In in Hy as [Hy Hb].
      apply andb_prop in Hb as [H1 H2]. apply Nat.eqb_eq in H1. apply String.eqb_eq in H2.
      rewrite (detailsRow_phoneNumber f oc op x H2) in Htr |- *.
      cbn [fd_followUp fd_entityName] in *. apply truthy_Some in Htr.
      split; [exact Hf|]. right; right. split; [exact H2|]. exists x. auto.
  - set (f := fd_followUp r). intros [Hf Hown].
    set (cs := filter (fun c => Nat.eqb c.(c_id) f.(f_entityId)
                                && String.eqb f.(f_entityType) "client") (clients (store c))).
    set (ps := filter (fun p => Nat.eqb p.(p_id) f.(f_entityId)
                                && String.eqb f.(f_entityType) "prospect") (prospects (store c))).
    set (ns := filter (fun p => Nat.eqb p.(pn_id) f.(f_entityId)
                                && String.eqb f.(f_entityType) "phoneNumber") (phoneNumbers (store c))).
    destruct (leftJoin_inhabited cs) as [oc0 Hoc0].
    destruct (leftJoin_inhabited ps) as [op0 Hop0].
    destruct (leftJoin_inhabited ns) as [on0 Hon0].
    assert (Hsome : forall {A} (l : list A) a, In a l -> In (Some a) (leftJoin l)).
    { intros A l a Ha. apply in_leftJoin. right. eauto. }
    destruct Hown as [(Ht & x & Hx & H1 & H2 & Hn & Hr)
                     |[(Ht & x & Hx & H1 & H2 & Hn & Hr)|(Ht & x & Hx & H1 & H2 & Hn & Hr)]];
      rewrite Hr; (split; [|cbn [fd_entityName]; apply truthy_Some, Hn]); exists f;
      (split; [exact Hf|]).
    + apply in_flat_map. exists (Some x). split.
      { apply Hsome, filter_In. split; [exact Hx|]. rewrite H1, Ht, Nat.eqb_refl. reflexivity. }
      apply in_flat_map. exists op0. split; [exact Hop0|].
      apply in_flat_map. exists on0. split; [exact Hon0|].
      cbn [ownedBy]. rewrite H2, Nat.eqb_refl. left. apply detailsRow_client, Ht.
    + apply in_flat_map. exists oc0. split; [exact Hoc0|].
      apply in_flat_map. exists (Some x). split.
      { apply Hsome, filter_In. split; [exact Hx|]. rewrite H1, Ht, Nat.eqb_refl. reflexivity. }
      apply in_flat_map. exists on0. split; [exact Hon0|].
      cbn [ownedBy]. rewrite H2, Nat.eqb_refl, orb_true_r. left. apply detailsRow_prospect, Ht.
    + apply in_flat_map. exists oc0. split; [exact Hoc0|].
      apply in_flat_map. exists op0. split; [exact Hop0|].
      apply in_flat_map. exists (Some x). split.
      { apply Hsome, filter_In. split; [exact Hx|]. rewrite H1, Ht, Nat.eqb_refl. reflexivity. }
      cbn [ownedBy]. rewrite H2, Nat.eqb_refl, orb_true_r. left. apply detailsRow_phoneNumber, Ht.
Qed.

(** X27: the rows of [getFollowUpsWithDetails] come pending first
    ([isCompleted] ascending) and, for equal [isCompleted], by ascending date;
    dropping the rows without a name keeps that order. *)
Theorem getFollowUpsWithDetails_ordered (env : Env) (c : Conn) (userId : nat)
  (l : list FollowUpWithDetails) (H : fst (getFollowUpsWithDetails userId env c) = Ok l) :
  Sorted (fun a b =>
    (f_isCompleted (fd_followUp a) < f_isCompleted (fd_followUp b))%nat \/
    (f_isCompleted (fd_followUp a) = f_isCompleted (fd_followUp b) /\
     String.leb (f_date (fd_followUp a)) (f_date (fd_followUp b)) = true)) l.
Proof.
  apply getFollowUpsWithDetails_ok in H. subst l.
  apply (Sorted_mono (fun a b => byCompletedThenDate a b = true)).
  { intros a b. unfold byCompletedThenDate.
    rewrite orb_true_iff, andb_true_iff, Nat.ltb_lt, Nat.eqb_eq. tauto. }
  apply StronglySorted_Sorted, StronglySorted_filter.
  apply Sorted_StronglySorted; [exact byCompletedThenDate_trans|].
  apply sortBy_sorted_gen, byCompletedThenDate_total.
Qed.

(** ** [signup] and [signin] *)

Lemma existsb_username_false (us : list User) (username : string) :
  Forall (fun x => usr_username x <> username) us ->
  existsb (fun u => String.eqb (usr_username u) username) us = false.
Proof.
  induction 1 as [|x us Hx _ IH]; cbn; [reflexivity|].
  apply String.eqb_neq in Hx. rewrite Hx, IH. reflexivity.
Qed.

Lemma find_user_absent (us : list User) (username h : string) :
  Forall (fun x => usr_username x <> username) us ->
  find (fun u => String.eqb (usr_username u) username && String.eqb (usr_passwordHash u) h) us
  = None.
Proof.
  induction 1 as [|x us Hx _ IH]; cbn; [reflexivity|].
  apply String.eqb_neq in Hx. rewrite Hx. exact IH.
Qed.

(** X28: on a username no user has, [signup] creates the user with the next
    id, the given username and name, and the hash of the password (not the
    password); [signin] with the same username and password then returns that
    user, and [signin] with a password of another hash is refused with
    "Invalid credentials". *)
Theorem signup_then_signin (hashPassword : string -> string) (t : string)
  (dm : string -> option string) (uc : UConn) (username password password' name : string)
  (Hfresh : Forall (fun x => usr_username x <> username) (users (ustore uc))) :
  exists u,
    fst (signup hashPassword username password name (noFaults t dm) uc) = AOk u /\
    u = mkUser (nextId (seqUsers (ustore uc))) username (hashPassword password) name /\
    fst (signin hashPassword username password (noFaults t dm)
           (snd (signup hashPassword username password name (noFaults t dm) uc))) = AOk u /\
    (hashPassword password' <> hashPassword password ->
     fst (signin hashPassword username password' (noFaults t dm)
            (snd (signup hashPassword username password name (noFaults t dm) uc)))
     = AErr InvalidCredentials).
Proof.
  pose proof (existsb_username_false _ _ Hfresh) as E.
  unfold signup, signin, ustmt, sql_insertUser, sql_selectUser. cbv zeta.
  cbn [faults noFaults]. rewrite E. cbn [fst snd ustore users].
  rewrite !find_app, !(find_user_absent _ _ _ Hfresh). cbn [find usr_username usr_passwordHash].
  rewrite String.eqb_refl, String.eqb_refl. cbn [andb].
  eexists. split; [reflexivity|]. split; [reflexivity|]. split; [reflexivity|].
  intros Hne. apply String.eqb_neq in Hne. rewrite String.eqb_sym, Hne. reflexivity.
Qed.

(** X29: every failure of [signup], a storage fault included, is reported as
    "Username already exists" and leaves the Users table as it was; a username
    already taken always fails; and [signup] keeps usernames distinct. *)
Theorem signup_failure (hashPassword : string -> string) (env : Env) (uc : UConn)
  (username password name : string) :
  (forall e, fst (signup hashPassword username password name env uc) = AErr e ->
     e = UsernameExists /\
     ustore (snd (signup hashPassword username password name env uc)) = ustore uc) /\
  (Exists (fun x => usr_username x = username) (users (ustore uc)) ->
     fst (signup hashPassword username password name env uc) = AErr UsernameExists) /\
  (NoDup (map usr_username (users (ustore uc))) ->
     NoDup (map usr_username (users (ustore (snd (signup hashPassword username password name env uc)))))).
Proof.
  unfold signup, ustmt, sql_insertUser. cbv zeta.
  destruct (faults env (ustmtNo uc)); cbn [fst snd ustore].
  { split; [intros e He; injection He as <-; auto|]. split; auto. }
  destruct (existsb (fun u => String.eqb (usr_username u) username) (users (ustore uc))) eqn:Ex;
    cbn [fst snd ustore users].
  { split; [intros e He; injection He as <-; auto|]. split; auto. }
  split; [intros e He; discriminate|]. split.
  - intros Hex. apply Exists_exists in Hex as (x & Hx & Hu).
    assert (Ht : existsb (fun u => String.eqb (usr_username u) username) (users (ustore uc)) = true).
    { apply existsb_exists. exists x. split; [exact Hx|]. apply String.eqb_eq, Hu. }
    congruence.
  - intros Hnd. rewrite map_app. cbn [map usr_username]. apply NoDup_snoc; [exact Hnd|].
    intros Hin. apply in_map_iff in Hin as (x & Hu & Hx).
    assert (Ht : existsb (fun u => String.eqb (usr_username u) username) (users (ustore uc)) = true).
    { apply existsb_exists. exists x. split; [exact Hx|]. apply String.eqb_eq, Hu. }
    congruence.
Qed.

(** X30: [signin] never changes the Users table; the user it returns is a
    stored user with that username and the hash of the given password; and
    when no stored user has both, it fails with "Invalid credentials". *)
Theorem signin_result (hashPassword : string -> string) (env : Env) (uc : UConn)
  (username password : string) :
  (forall u, fst (signin hashPassword username password env uc) = AOk u ->
     In u (users (ustore uc)) /\ usr_username u = username /\
     usr_passwordHash u = hashPassword password) /\
  ustore (snd (signin hashPassword username password env uc)) = ustore uc /\
  (faults env (ustmtNo uc) = false ->
   Forall (fun x => usr_username x <> username \/ usr_passwordHash x <> hashPassword password)
     (users (ustore uc)) ->
   fst (signin hashPassword username password env uc) = AErr InvalidCredentials).
Proof.
  unfold signin, ustmt, sql_selectUser. cbv zeta.
  destruct (faults env (ustmtNo uc)) eqn:F; cbn [fst snd ustore].
  { split; [intros u Hu; discriminate|]. split; [reflexivity|]. intros Hf; discriminate. }
  destruct (find _ (users (ustore uc))) as [x|] eqn:Ef; cbn [fst snd ustore].
  - apply find_some in Ef as [Hx Hb]. apply andb_prop in Hb as [H1 H2].
    apply String.eqb_eq in H1. apply String.eqb_eq in H2.
    split; [intros u Hu; injection Hu as <-; auto|]. split; [reflexivity|].
    intros _ Hall. eapply Forall_forall in Hall; [|exact Hx]. tauto.
  - split; [intros u Hu; discriminate|]. split; reflexivity.
Qed.

(** A client named "Al" and a client with an empty name, both of user 1, each
    with a pending follow-up. *)
Definition detailsDB : DB :=
  mkDB [mkClient 1 1 "Al" "555-0101" "al@a.example" "A Ltd" "Retail";
        mkClient 2 1 "" "555-0199" "x@x.example" "X Ltd" "Retail"] [] []
       [mkFollowUp 1 1 "client" "2024-06-10" "call" 0 "2024-06-01T00:00:00.000Z";
        mkFollowUp 2 2 "client" "2024-06-05" "visit" 0 "2024-06-01T00:00:00.000Z"] [] []
       2 0 0 2 0 0.

Definition alFollowUp : FollowUp :=
  mkFollowUp 1 1 "client" "2024-06-10" "call" 0 "2024-06-01T00:00:00.000Z".

Definition alDetails : FollowUpWithDetails :=
  mkFollowUpWithDetails alFollowUp (Some "Al") (Some "555-0101") (Some "A Ltd").

Lemma getFollowUpsWithDetails_rows_witness :
  fst (getFollowUpsWithDetails 1 noFaults0 (mkConn detailsDB 0)) = Ok [alDetails] /\
  List.length (match fst (getFollowUps 1 noFaults0 (mkConn detailsDB 0)) with
               | Ok l => l | Err _ => [] end) = 2%nat /\
  (In alDetails [alDetails] <->
   In (fd_followUp alDetails) (followUps detailsDB) /\
   ((f_entityType (fd_followUp alDetails) = "client" /\
     exists x, In x (clients detailsDB) /\ c_id x = f_entityId (fd_followUp alDetails) /\
       c_userId x = 1%nat /\ c_name x <> "" /\
       alDetails = mkFollowUpWithDetails (fd_followUp alDetails) (Some (c_name x))
                     (Some (c_phone x)) (Some (c_company x))) \/
    (f_entityType (fd_followUp alDetails) = "prospect" /\
     exists x, In x (prospects detailsDB) /\ p_id x = f_entityId (fd_followUp alDetails) /\
       p_userId x = 1%nat /\ p_name x <> "" /\
       alDetails = mkFollowUpWithDetails (fd_followUp alDetails) (Some (p_name x))
                     (Some (p_phone x)) (Some (p_company x))) \/
    (f_entityType (fd_followUp alDetails) = "phoneNumber" /\
     exists x, In x (phoneNumbers detailsDB) /\ pn_id x = f_entityId (fd_followUp alDetails) /\
       pn_userId x = 1%nat /\ pn_number x <> "" /\
       alDetails = mkFollowUpWithDetails (fd_followUp alDetails) (Some (pn_number x))
                     (Some (pn_number x)) None))).
Proof.
  assert (H : fst (getFollowUpsWithDetails 1 noFaults0 (mkConn detailsDB 0)) = Ok [alDetails])
    by (vm_compute; reflexivity).
  split; [exact H|]. split; [vm_compute; reflexivity|].
  exact (getFollowUpsWithDetails_rows noFaults0 (mkConn detailsDB 0) 1 [alDetails] H alDetails).
Defined.

Lemma getFollowUpsWithDetails_ordered_witness :
  fst (getFollowUpsWithDetails 1 noFaults0 (mkConn detailsDB 0)) = Ok [alDetails] /\
  Sorted (fun a b =>
    (f_isCompleted (fd_followUp a) < f_isCompleted (fd_followUp b))%nat \/
    (f_isCompleted (fd_followUp a) = f_isCompleted (fd_followUp b) /\
     String.leb (f_date (fd_followUp a)) (f_date (fd_followUp b)) = true)) [alDetails].
Proof.
  assert (H : fst (getFollowUpsWithDetails 1 noFaults0 (mkConn detailsDB 0)) = Ok [alDetails])
    by (vm_compute; reflexivity).
  split; [exact H|].
  exact (getFollowUpsWithDetails_ordered noFaults0 (mkConn detailsDB 0) 1 [alDetails] H).
Defined.

(** A stand-in digest for the witnesses. *)
Definition hashPassword0 (password : string) : string := String.append "sha256:" password.

Definition oneUserConn : UConn :=
  mkUConn (mkUsersTable [mkUser 1 "al" (hashPassword0 "secret") "Al"] 1) 0.

Lemma signup_then_signin_witness :
  Forall (fun x => usr_username x <> "bea") (users (ustore oneUserConn)) /\
  exists u,
    fst (signup hashPassword0 "bea" "pw" "Bea" noFaults0 oneUserConn) = AOk u /\
    u = mkUser (nextId (seqUsers (ustore oneUserConn))) "bea" (hashPassword0 "pw") "Bea" /\
    fst (signin hashPassword0 "bea" "pw" noFaults0
           (snd (signup hashPassword0 "bea" "pw" "Bea" noFaults0 oneUserConn))) = AOk u /\
    (hashPassword0 "wrong" <> hashPassword0 "pw" ->
     fst (signin hashPassword0 "bea" "wrong" noFaults0
            (snd (signup hashPassword0 "bea" "pw" "Bea" noFaults0 oneUserConn)))
     = AErr InvalidCredentials).
Proof.
  assert (Hf : Forall (fun x => usr_username x <> "bea") (users (ustore oneUserConn)))
    by (repeat constructor; cbn; discriminate).
  split; [exact Hf|].
  exact (signup_then_signin hashPassword0 "2024-06-03T09:00:00.000Z" (fun _ => None)
           oneUserConn "bea" "pw" "wrong" "Bea" Hf).
Defined.
